(** * DiscordWootBot: the refresh pipeline of [main.py]

    A shallow embedding of the deal normalizer, the deal filter, the
    historical-low tracker, the feed fetcher, the refresh cycle with its
    result cache, the pagination view with the text of its pages, and
    the settings file, followed by the properties the specification
    states about them and by further properties read off the code.

    Numbers.  Python [int] and [float] values that come out of the feed
    JSON are modelled as exact rationals ([Q]); a Python [bool] counts as
    the number 0 or 1, as [isinstance(True, int)] holds.  The values
    [nan] and [inf] are not JSON and are outside the model; the only
    [inf] the program itself creates, the default of
    [historical_lows_cache.get(offer_id, float('inf'))], is modelled by
    [None].  The clock ([time.time()]) and the random draws
    ([random.uniform]) are inputs of the functions that read them. *)

From Stdlib Require Import QArith Qround Qminmax ZArith List String Ascii Bool Lia Lqa.
From Stdlib Require Import DecimalString Permutation Sorted.
Import ListNotations.
Open Scope string_scope.
Open Scope list_scope.
Open Scope Q_scope.
Set Warnings "-register-all".

(** ** JSON values, as [json.load] and [response.json()] return them *)

Inductive json : Type :=
| JNull
| JBool (b : bool)
| JNum (q : Q)
| JStr (s : string)
| JArr (l : list json)
| JObj (kvs : list (string * json)).

(** [d.get(key)] on a parsed object: [None] when the key is missing. *)
Fixpoint obj_get (key : string) (kvs : list (string * json)) : option json :=
  match kvs with
  | [] => None
  | (k, v) :: rest => if String.eqb k key then Some v else obj_get key rest
  end.

(** [d.get(key, default)]. *)
Definition obj_get_default (key : string) (default : json)
  (kvs : list (string * json)) : json :=
  match obj_get key kvs with
  | Some v => v
  | None => default
  end.

(** Python truth value of a JSON value ([if x:], [x and y]). *)
Definition truthy (v : json) : bool :=
  match v with
  | JNull => false
  | JBool b => b
  | JNum q => negb (Qeq_bool q 0)
  | JStr s => negb (String.eqb s "")
  | JArr l => match l with [] => false | _ => true end
  | JObj kvs => match kvs with [] => false | _ => true end
  end.

(** [isinstance(v, (int, float))], with the number it denotes. *)
Definition as_number (v : json) : option Q :=
  match v with
  | JNum q => Some q
  | JBool b => Some (if b then 1 else 0)
  | _ => None
  end.

Definition Qltb (x y : Q) : bool := negb (Qle_bool y x).

(** [round(x, 2)]: to the nearest hundredth, ties to the even one. *)
Definition round_half_even (q : Q) : Z :=
  let f := Qfloor q in
  match Qcompare (q - inject_Z f) (1 # 2) with
  | Lt => f
  | Gt => (f + 1)%Z
  | Eq => if Z.even f then f else (f + 1)%Z
  end.

Definition round2 (q : Q) : Q := inject_Z (round_half_even (q * 100)) / 100.

(** ** Configuration constants *)

Definition MAX_DEALS_PER_PAGE : Z := 10.

Definition FEED_NAMES : list string :=
  ["All"; "Clearance"; "Computers"; "Electronics"; "Featured"; "Home";
   "Gourmet"; "Shirts"; "Sports"; "Tools"; "Wootoff"].

Definition MIN_SALE_PRICE : Q := 75.
Definition MIN_PERCENT_OFF_LOW_TIER : Q := 50.
Definition MIN_DOLLAR_SAVINGS : Q := 40.
Definition MAX_CACHE_AGE_SECONDS : Q := 300.

(** ** Deals *)

(** The label the refresh cycle stores under ['status'].  [PRICE_DROP]
    carries the previous low that the source prints into the label. *)
Inductive Status : Type :=
| NEW_LOW
| PRICE_DROP (was : Q)
| GREAT_DEAL.

(** The dictionary built by [process_deal_data]; ['status'] is absent
    until the refresh cycle sets it. *)
Record Deal : Type := mkDeal {
  offer_id : json;
  title : json;
  url : json;
  feed_name : string;
  sale_price : option Q;
  list_price : option Q;
  discount_percent : Q;
  savings_amount : Q;
  is_sold_out : json;
  status : option Status
}.

Definition set_status (s : Status) (d : Deal) : Deal :=
  mkDeal (offer_id d) (title d) (url d) (feed_name d) (sale_price d)
    (list_price d) (discount_percent d) (savings_amount d) (is_sold_out d)
    (Some s).

Definition set_prices (sale_min list_min : Q) (d : Deal) : Deal :=
  mkDeal (offer_id d) (title d) (url d) (feed_name d) (Some sale_min)
    (Some list_min)
    (round2 (((list_min - sale_min) / list_min) * 100))
    (round2 (list_min - sale_min))
    (is_sold_out d) (status d).

(** Exceptions that escape the modelled functions. *)
Inductive PyExn : Type :=
| AttributeError
| TypeError.

(** The deal with every price field at its default (lines 127-137). *)
Definition default_deal (raw : list (string * json)) (feed : string) : Deal :=
  mkDeal (obj_get_default "OfferId" (JStr "N/A") raw)
    (obj_get_default "Title" (JStr "No Title") raw)
    (obj_get_default "Url" (JStr "#") raw)
    feed None None 0 0
    (obj_get_default "IsSoldOut" (JBool true) raw)
    None.

(** The [try] block of lines 143-156.  A truthy price value that is not
    an object has no [get]: the [AttributeError] is caught and the deal
    is left as it is. *)
Definition extract_prices (sale_price_data list_price_data : json)
  (d : Deal) : Deal :=
  match sale_price_data, list_price_data with
  | JObj sp, JObj lp =>
      match obj_get "Minimum" sp, obj_get "Minimum" lp with
      | Some sv, Some lv =>
          match as_number sv, as_number lv with
          | Some sale_min, Some list_min =>
              if Qltb 0 list_min && Qltb sale_min list_min
              then set_prices sale_min list_min d
              else d
          | _, _ => d
          end
      | _, _ => d
      end
  | _, _ => d
  end.

(** [process_deal_data(raw_deal_data, feed_name)].  An item that is not
    an object has no [get] and the call raises. *)
Definition process_deal_data (raw_deal_data : json) (feed : string)
  : PyExn + Deal :=
  match raw_deal_data with
  | JObj raw =>
      let deal := default_deal raw feed in
      match obj_get "SalePrice" raw, obj_get "ListPrice" raw with
      | Some sale_price_data, Some list_price_data =>
          if truthy sale_price_data && truthy list_price_data
          then inr (extract_prices sale_price_data list_price_data deal)
          else inr deal
      | _, _ => inr deal
      end
  | _ => inl AttributeError
  end.

(** [passes_strict_rules(deal)]. *)
Definition passes_strict_rules (deal : Deal) : bool :=
  match sale_price deal with
  | None => false
  | Some price =>
      if truthy (is_sold_out deal) then false
      else if Qltb price MIN_SALE_PRICE then false
      else if Qltb (savings_amount deal) MIN_DOLLAR_SAVINGS then false
      else if Qltb (discount_percent deal) MIN_PERCENT_OFF_LOW_TIER then false
      else true
  end.

(** ** The historical-low dictionary

    A Python [dict] keeps insertion order and compares keys with [==]:
    strings by content, numbers by value (so [1], [1.0] and [True] are
    one key).  Lists and objects are unhashable. *)

Definition hashable (v : json) : bool :=
  match v with
  | JArr _ | JObj _ => false
  | _ => true
  end.

Definition key_eqb (a b : json) : bool :=
  match a, b with
  | JNull, JNull => true
  | JStr s, JStr t => String.eqb s t
  | _, _ =>
      match as_number a, as_number b with
      | Some x, Some y => Qeq_bool x y
      | _, _ => false
      end
  end.

Definition LowsDict : Type := list (json * Q).

Fixpoint dict_get (k : json) (d : LowsDict) : option Q :=
  match d with
  | [] => None
  | (k', v) :: rest => if key_eqb k' k then Some v else dict_get k rest
  end.

Fixpoint dict_set (k : json) (v : Q) (d : LowsDict) : LowsDict :=
  match d with
  | [] => [(k, v)]
  | (k', v') :: rest =>
      if key_eqb k' k then (k', v) :: rest else (k', v') :: dict_set k v rest
  end.

(** [historical_lows.json].  The program is the file's only writer, so
    a readable file holds a table it dumped; [json.dump] turns a key
    that is not a string into one, which the model leaves out (the
    feed's identifiers are strings). *)
Inductive FileState : Type :=
| FileAbsent
| FileCorrupt
| FileTable (t : LowsDict).

(** ** Process state and effects *)

(** What a call does to the outside, in order. *)
Inductive Event : Type :=
| EvRequest (feed : string) (attempt : nat)
| EvSleep (attempt : nat) (delay : Q)
| EvPace (delay : Q)
| EvSave (key : json) (price : Q).

(** The two globals, the file, and the two fields of [WootBotClient]
    that hold the published result. *)
Record State : Type := mkState {
  historical_lows_cache : LowsDict;
  persistence_file : FileState;
  all_qualified_deals : list Deal;
  last_fetch_time : Q;
  trace : list Event
}.

(** What the environment supplies during one call: the answer to each
    HTTP attempt, the random draws, the two clock readings, and whether
    the persistence file can be written.  An answer carries its status
    code and its body as [response.json()] parses it; a body that is
    not JSON makes [response.json()] raise a [RequestException] and is
    covered by that outcome. *)
Inductive HttpOutcome : Type :=
| Response (status_code : Z) (body : json)
| Timeout
| RequestException.

Record World : Type := mkWorld {
  http : string -> nat -> HttpOutcome;
  jitter : string -> nat -> Q;
  pacing : string -> Q;
  disk_ok : bool;
  clock_start : Q;
  clock_end : Q
}.

Inductive Outcome (A : Type) : Type :=
| Ret (a : A)
| Raise (e : PyExn).
Arguments Ret {A} a.
Arguments Raise {A} e.

Definition M (A : Type) : Type := State -> Outcome A * State.

Definition ret {A : Type} (a : A) : M A := fun st => (Ret a, st).

Definition raise {A : Type} (e : PyExn) : M A := fun st => (Raise e, st).

Definition bind {A B : Type} (m : M A) (k : A -> M B) : M B :=
  fun st =>
    match m st with
    | (Ret a, st') => k a st'
    | (Raise e, st') => (Raise e, st')
    end.

Notation "x <- m ;; k" := (bind m (fun x => k))
  (at level 61, m at next level, right associativity).
Notation "m ;;; k" := (bind m (fun _ => k))
  (at level 61, right associativity).

Definition emit (e : Event) : M unit :=
  fun st =>
    (Ret tt,
     mkState (historical_lows_cache st) (persistence_file st)
       (all_qualified_deals st) (last_fetch_time st) (trace st ++ [e])).

(** A [for] loop whose body threads the local accumulator. *)
Fixpoint for_each {A B : Type} (body : A -> B -> M B) (xs : list A) (acc : B)
  : M B :=
  match xs with
  | [] => ret acc
  | x :: rest => acc' <- body x acc ;; for_each body rest acc'
  end.

(** [load_historical_lows()]: a missing file leaves the global as it
    is, an unreadable one resets it to the empty dictionary. *)
Definition load_historical_lows : M unit :=
  fun st =>
    let cache :=
      match persistence_file st with
      | FileAbsent => historical_lows_cache st
      | FileCorrupt => []
      | FileTable t => t
      end in
    (Ret tt,
     mkState cache (persistence_file st) (all_qualified_deals st)
       (last_fetch_time st) (trace st)).

(** [save_historical_low(offer_id, price)]: the global is updated, then
    the whole table is dumped; a failed write is caught and printed. *)
Definition save_historical_low (w : World) (key : json) (price : Q) : M unit :=
  fun st =>
    if hashable key then
      let cache := dict_set key price (historical_lows_cache st) in
      (Ret tt,
       mkState cache
         (if disk_ok w then FileTable cache else persistence_file st)
         (all_qualified_deals st) (last_fetch_time st)
         (trace st ++ [EvSave key price]))
    else (Raise TypeError, st).

(** [historical_lows_cache.get(offer_id, float('inf'))]; [None] stands
    for the default [inf]. *)
Definition cache_get (key : json) : M (option Q) :=
  fun st =>
    if hashable key then (Ret (dict_get key (historical_lows_cache st)), st)
    else (Raise TypeError, st).

(** [deal['sale_price'] < current_low]. *)
Definition below_low (price : Q) (current_low : option Q) : bool :=
  match current_low with
  | None => true
  | Some low => Qltb price low
  end.

(** Lines 377-391: the historical-low tracker, applied to one
    normalized deal; [acc] is the local list [all_qualified_deals]. *)
Definition track_deal (w : World) (deal : Deal) (acc : list Deal)
  : M (list Deal) :=
  if passes_strict_rules deal then
    match sale_price deal with
    | None => raise TypeError
    | Some price =>
        current_low <- cache_get (offer_id deal) ;;
        if below_low price current_low then
          save_historical_low w (offer_id deal) price ;;;
          ret (acc ++ [set_status
                         match current_low with
                         | None => NEW_LOW
                         | Some low => PRICE_DROP low
                         end deal])
        else ret (acc ++ [set_status GREAT_DEAL deal])
    end
  else ret acc.

(** Lines 375-391: the body of the loop over one feed's items. *)
Definition process_item (w : World) (feed : string) (raw_deal : json)
  (acc : list Deal) : M (list Deal) :=
  match process_deal_data raw_deal feed with
  | inl e => raise e
  | inr deal => track_deal w deal acc
  end.

(** ** The feed fetcher *)

(** [raise_for_status()] raises for the 4xx and 5xx codes only. *)
Definition is_error_status (status_code : Z) : bool :=
  ((400 <=? status_code) && (status_code <? 600))%Z.

(** The delay of line 109, [2**attempt + random.uniform(0.5, 1)]. *)
Definition backoff_delay (w : World) (feed : string) (attempt : nat) : Q :=
  inject_Z (2 ^ Z.of_nat attempt) + jitter w feed attempt.

(** The loop of lines 103-119 over the attempts that are left.  A
    body that is not an object has no [get]; that [AttributeError] is
    not a [RequestException] and leaves the function. *)
Fixpoint fetch_attempts (w : World) (feed : string) (attempts : list nat)
  : M json :=
  match attempts with
  | [] => ret (JArr [])
  | attempt :: rest =>
      emit (EvRequest feed attempt) ;;;
      match http w feed attempt with
      | Response status_code body =>
          if (status_code =? 200)%Z then
            match body with
            | JObj kvs => ret (obj_get_default "Items" (JArr []) kvs)
            | _ => raise AttributeError
            end
          else if (status_code =? 429)%Z then
            emit (EvSleep attempt (backoff_delay w feed attempt)) ;;;
            fetch_attempts w feed rest
          else if is_error_status status_code then ret (JArr [])
          else fetch_attempts w feed rest
      | Timeout => fetch_attempts w feed rest
      | RequestException => ret (JArr [])
      end
  end.

(** [fetch_feed_data(feed_name, api_key)]: [for attempt in range(3)]. *)
Definition fetch_feed_data (w : World) (feed : string) : M json :=
  fetch_attempts w feed (seq 0 3).

(** ** The refresh cycle *)

(** What [for raw_deal in deals_data] iterates over: the elements of a
    list, the keys of an object, the characters of a string; the other
    values are not iterable. *)
Definition py_iter (v : json) : option (list json) :=
  match v with
  | JArr l => Some l
  | JObj kvs => Some (map (fun kv => JStr (fst kv)) kvs)
  | JStr s => Some (map (fun c => JStr (String c "")) (list_ascii_of_string s))
  | _ => None
  end.

(** Lines 371-391: fetch one feed and run the tracker over its items. *)
Definition fetch_and_track (w : World) (feed : string) (acc : list Deal)
  : M (list Deal) :=
  deals_data <- fetch_feed_data w feed ;;
  match py_iter deals_data with
  | None => raise TypeError
  | Some items => for_each (process_item w feed) items acc
  end.

(** Lines 371-393: one turn of the loop over the feeds, with the pacing
    sleep that ends it. *)
Definition process_feed (w : World) (feed : string) (acc : list Deal)
  : M (list Deal) :=
  acc' <- fetch_and_track w feed acc ;;
  emit (EvPace (pacing w feed)) ;;;
  ret acc'.

(** [list.sort(key=lambda d: d['discount_percent'], reverse=True)]:
    stable, highest discount first. *)
Fixpoint insert_desc (d : Deal) (l : list Deal) : list Deal :=
  match l with
  | [] => [d]
  | x :: rest =>
      if Qle_bool (discount_percent x) (discount_percent d)
      then d :: x :: rest
      else x :: insert_desc d rest
  end.

Definition sort_desc (l : list Deal) : list Deal :=
  fold_right insert_desc [] l.

(** Lines 395-401: sort, publish the list and its timestamp. *)
Definition publish (w : World) (deals : list Deal) : M (list Deal) :=
  fun st =>
    let sorted := sort_desc deals in
    (Ret sorted,
     mkState (historical_lows_cache st) (persistence_file st) sorted
       (clock_end w) (trace st)).

(** Lines 364-401. *)
Definition refresh_cycle (w : World) : M (list Deal) :=
  load_historical_lows ;;;
  deals <- for_each (process_feed w) FEED_NAMES [] ;;
  publish w deals.

(** The test of lines 360-361. *)
Definition cache_is_fresh (w : World) (force_refresh : bool) (st : State)
  : bool :=
  negb force_refresh
  && Qltb (clock_start w - last_fetch_time st) MAX_CACHE_AGE_SECONDS.

(** [WootBotClient.fetch_and_filter_deals_internal(api_key, force_refresh)],
    run without another call interleaved. *)
Definition fetch_and_filter_deals_internal (w : World) (force_refresh : bool)
  : M (list Deal) :=
  fun st =>
    if cache_is_fresh w force_refresh st
    then (Ret (all_qualified_deals st), st)
    else refresh_cycle w st.

(** ** The coroutine on the event loop

    [fetch_and_filter_deals_internal] is a coroutine: it gives the event
    loop back at [await loop.run_in_executor(...)] and at
    [await asyncio.sleep(...)], and other calls run in between.  A
    suspended call is its program point with its local variables. *)
Inductive Task : Type :=
| AwaitFetch (w : World) (feed : string) (rest : list string)
    (acc : list Deal)
| AwaitSleep (w : World) (rest : list string) (acc : list Deal)
| Finished (result : Outcome (list Deal)).

(** The head of the [for feed_name in FEED_NAMES] loop. *)
Definition next_feed (w : World) (feeds : list string) (acc : list Deal)
  : M Task :=
  match feeds with
  | [] => deals <- publish w acc ;; ret (Finished (Ret deals))
  | feed :: rest => ret (AwaitFetch w feed rest acc)
  end.

(** An exception ends the call. *)
Definition settle (m : M Task) (st : State) : Task * State :=
  match m st with
  | (Ret t, st') => (t, st')
  | (Raise e, st') => (Finished (Raise e), st')
  end.

(** A call from its first line to its first [await]. *)
Definition start_task (w : World) (force_refresh : bool) (st : State)
  : Task * State :=
  if cache_is_fresh w force_refresh st
  then (Finished (Ret (all_qualified_deals st)), st)
  else settle (load_historical_lows ;;; next_feed w FEED_NAMES []) st.

(** A suspended call from the [await] it waits at to the next one; the
    requests of the executor thread are accounted for when the call is
    woken with their result. *)
Definition resume (t : Task) (st : State) : Task * State :=
  match t with
  | AwaitFetch w feed rest acc =>
      settle (acc' <- process_feed w feed acc ;; ret (AwaitSleep w rest acc'))
        st
  | AwaitSleep w rest acc => settle (next_feed w rest acc) st
  | Finished r => (Finished r, st)
  end.

Fixpoint run_alone (fuel : nat) (t : Task) (st : State) : Task * State :=
  match fuel with
  | O => (t, st)
  | S fuel' => let (t', st') := resume t st in run_alone fuel' t' st'
  end.

(** The event loop: the shared state and the calls it holds. *)
Record Loop : Type := mkLoop {
  shared : State;
  tasks : list Task
}.

Inductive LoopStep : Type :=
| Trigger (w : World) (force_refresh : bool)
| Wake (i : nat).

Fixpoint replace_nth {A : Type} (i : nat) (x : A) (l : list A) : list A :=
  match l, i with
  | [], _ => []
  | _ :: rest, O => x :: rest
  | y :: rest, S j => y :: replace_nth j x rest
  end.

Definition loop_step (l : Loop) (s : LoopStep) : Loop :=
  match s with
  | Trigger w force_refresh =>
      let (t, st) := start_task w force_refresh (shared l) in
      mkLoop st (tasks l ++ [t])
  | Wake i =>
      match nth_error (tasks l) i with
      | Some t => let (t', st) := resume t (shared l) in
                  mkLoop st (replace_nth i t' (tasks l))
      | None => l
      end
  end.

Definition run_loop (l : Loop) (steps : list LoopStep) : Loop :=
  fold_left loop_step steps l.

Definition in_flight (t : Task) : bool :=
  match t with
  | Finished _ => false
  | _ => true
  end.

Definition cycles_in_flight (l : Loop) : nat :=
  List.length (filter in_flight (tasks l)).

Definition is_request (feed : string) (e : Event) : bool :=
  match e with
  | EvRequest f _ => String.eqb f feed
  | _ => false
  end.

Definition is_any_request (e : Event) : bool :=
  match e with
  | EvRequest _ _ => true
  | _ => false
  end.

(** ** The pagination view *)

Module DealsView.

(** The fields [DealsView.__init__] sets; the buttons' [disabled]
    flags and the rendered text are derived from them. *)
Record t : Type := mk {
  deals : list Deal;
  title : string;
  current_page : Z;
  total_pages : Z
}.

(** [DealsView.__init__(deals, title)]. *)
Definition init (deals : list Deal) (title : string) : t :=
  mk deals title 0
    ((Z.of_nat (List.length deals) + MAX_DEALS_PER_PAGE - 1) / MAX_DEALS_PER_PAGE)%Z.

(** [previous_button]. *)
Definition previous_button (v : t) : t :=
  if (current_page v >? 0)%Z
  then mk (deals v) (title v) (current_page v - 1)%Z (total_pages v)
  else v.

(** [next_button]. *)
Definition next_button (v : t) : t :=
  if (current_page v <? total_pages v - 1)%Z
  then mk (deals v) (title v) (current_page v + 1)%Z (total_pages v)
  else v.

Inductive Click : Type :=
| Previous
| Next.

Definition click (v : t) (c : Click) : t :=
  match c with
  | Previous => previous_button v
  | Next => next_button v
  end.

Definition clicks (v : t) (cs : list Click) : t := fold_left click cs v.

(** The invariant the specification states for the cursor. *)
Definition page_in_range (v : t) : Prop :=
  (0 <= current_page v <= total_pages v - 1)%Z.

End DealsView.

(** ** Words of the specification, for comparison with the code *)

(** What the specification distinguishes in a raw item's price
    sub-object under [key]: it is missing, it carries no numeric
    minimum, or it carries the numeric minimum [q]. *)
Inductive MinimumKind : Type :=
| SubObjectMissing
| NonNumeric
| Numeric (q : Q).

Definition minimum_kind (key : string) (raw : list (string * json))
  : MinimumKind :=
  match obj_get key raw with
  | None => SubObjectMissing
  | Some (JObj sub) =>
      match obj_get "Minimum" sub with
      | Some v =>
          match as_number v with
          | Some q => Numeric q
          | None => NonNumeric
          end
      | None => NonNumeric
      end
  | Some _ => NonNumeric
  end.





(** ** What a stretch of a cycle does to the state *)

Definition is_save (e : Event) : bool :=
  match e with
  | EvSave _ _ => true
  | _ => false
  end.

Definition has_save (evs : list Event) : bool := existsb is_save evs.

(** From [st] to [st'] the events [evs] were appended to the trace, the
    published list and its timestamp were not touched, no stored low
    went up, every save of [evs] is still in the dictionary (at that
    price or a lower one saved later), and the file holds the
    dictionary as of the last save when it can be written. *)
Record Tracks (w : World) (st st' : State) (evs : list Event) : Prop := {
  tr_trace : trace st' = trace st ++ evs;
  tr_deals : all_qualified_deals st' = all_qualified_deals st;
  tr_time : last_fetch_time st' = last_fetch_time st;
  tr_mono : forall k v,
      dict_get k (historical_lows_cache st) = Some v ->
      exists v', dict_get k (historical_lows_cache st') = Some v' /\ v' <= v;
  tr_saves : forall k p,
      In (EvSave k p) evs ->
      exists v, dict_get k (historical_lows_cache st') = Some v /\ v <= p;
  tr_file : has_save evs = true -> disk_ok w = true ->
      persistence_file st' = FileTable (historical_lows_cache st');
  tr_idle : has_save evs = false ->
      historical_lows_cache st' = historical_lows_cache st
      /\ persistence_file st' = persistence_file st;
  tr_nodisk : disk_ok w = false ->
      persistence_file st' = persistence_file st
}.

Definition tracked {A : Type} (w : World) (m : M A) : Prop :=
  forall st, exists evs, Tracks w st (snd (m st)) evs.

(** ** The fetcher's trace, in the specification's words *)

Definition is_rate_limited (o : HttpOutcome) : bool :=
  match o with
  | Response status_code _ => (status_code =? 429)%Z
  | _ => false
  end.

(** What one attempt leaves in the trace: the request and, when it is
    answered with 429, the wait that follows it. *)
Definition attempt_events (w : World) (feed : string) (attempt : nat)
  : list Event :=
  EvRequest feed attempt
  :: (if is_rate_limited (http w feed attempt)
      then [EvSleep attempt (backoff_delay w feed attempt)]
      else []).

(** [random.uniform(0.5, 1)] of line 109 returns a number between its
    two bounds. *)
Definition jitter_in_range (w : World) : Prop :=
  forall feed attempt, (1 # 2) <= jitter w feed attempt <= 1.

(** The commands of lines 527-537, 574-583 and 623-634: an empty list
    is answered with a message and no view is built. *)
Definition open_view (deals : list Deal) (title : string)
  : option DealsView.t :=
  match deals with
  | [] => None
  | _ => Some (DealsView.init deals title)
  end.

(** [ceil(len(list) / 10)]. *)
Definition pages_needed (deals : list Deal) : Z :=
  Qceiling (inject_Z (Z.of_nat (List.length deals)) / 10).

(** A computation that only appends to the trace, and one whose first
    appended event is [e]. *)
Definition extends {A : Type} (m : M A) : Prop :=
  forall st, exists evs, trace (snd (m st)) = trace st ++ evs.

Definition first_event {A : Type} (e : Event) (m : M A) : Prop :=
  forall st, exists evs, trace (snd (m st)) = trace st ++ e :: evs.

(** What a call that ran to its end leaves on the event loop. *)
Definition finish (r : Outcome (list Deal) * State) : Task * State :=
  (Finished (fst r), snd r).


(** The file, if there is one, holds the dictionary that is in memory:
    the state every successful write leaves. *)
Definition synced (st : State) : Prop :=
  persistence_file st = FileAbsent
  \/ persistence_file st = FileTable (historical_lows_cache st).

(** ** Sample inputs *)



(** A not sold out item of the feed "All" with the given identifier
    and minimums, and the deal the tracker sees for it. *)
Definition sample_item (id : string) (sale_min list_min : Q) : json :=
  JObj [("OfferId", JStr id); ("Title", JStr "Sample"); ("IsSoldOut", JBool false);
        ("SalePrice", JObj [("Minimum", JNum sale_min)]);
        ("ListPrice", JObj [("Minimum", JNum list_min)])].

Definition sample_deal (id : string) (sale_min list_min : Q) : Deal :=
  set_prices sale_min list_min
    (mkDeal (JStr id) (JStr "Sample") (JStr "#") "All" None None 0 0
       (JBool false) None).

Definition sample_deals : list Deal :=
  [sample_deal "a" 80 200; sample_deal "a" 80 200; sample_deal "b" 100 300;
   sample_deal "a" 79 200].

Definition empty_state : State := mkState [] FileAbsent [] 0 [].

(** A world in which every request times out. *)
Definition silent_world : World :=
  mkWorld (fun _ _ => Timeout) (fun _ _ => 3 # 4) (fun _ => 12 # 10) true
    1000 1020.

(** A world in which the feed "All" answers 200 with one good item
    followed by an item that is not an object, read at second 1240. *)
Definition abort_world : World :=
  mkWorld
    (fun feed _ =>
       if String.eqb feed "All"
       then Response 200
              (JObj [("Items", JArr [sample_item "a" 80 200; JNum 1])])
       else Timeout)
    (fun _ _ => 3 # 4) (fun _ => 12 # 10) true 1240 1260.


(** A request at second 1250. *)
Definition later_world : World :=
  mkWorld (fun _ _ => Timeout) (fun _ _ => 3 # 4) (fun _ => 12 # 10) true
    1250 1270.

(** The state after a refresh that was published at second 1000. *)
Definition fresh_state : State :=
  mkState [] FileAbsent [set_status NEW_LOW (sample_deal "b" 100 300)] 1000 [].

(** The state after a refresh that was published at second 700, which
    [silent_world] reads exactly 300 seconds later. *)
Definition boundary_state : State :=
  mkState [] FileAbsent [set_status NEW_LOW (sample_deal "b" 100 300)] 700 [].

(** Where the forced cycle of [abort_world] leaves [fresh_state]. *)
Definition aborted_state : State :=
  snd (fetch_and_filter_deals_internal abort_world true fresh_state).

(** A world that answers 429 twice and then 200 with one item. *)
Definition rate_limited_world : World :=
  mkWorld
    (fun _ attempt =>
       match attempt with
       | 2%nat => Response 200 (JObj [("Items", JArr [sample_item "a" 80 200])])
       | _ => Response 429 JNull
       end)
    (fun _ _ => 3 # 4) (fun _ => 12 # 10) true 1000 1020.

(** The view over [sample_deals] after Next, Previous, Previous. *)
Definition sample_view : DealsView.t :=
  DealsView.clicks (DealsView.init sample_deals "Top 4")
    [DealsView.Next; DealsView.Previous; DealsView.Previous].


(** An event loop that holds no call, and the loop after two forced
    triggers have arrived one after the other. *)
Definition idle_loop : Loop := mkLoop fresh_state [].

Definition two_triggers : Loop :=
  run_loop idle_loop [Trigger silent_world true; Trigger silent_world true].


(** The minimum the specification speaks of: the lowest of the value
    already stored, if any, and the qualifying prices seen since. *)
Definition lower (stored : option Q) (price : Q) : option Q :=
  match stored with
  | None => Some price
  | Some low => Some (Qmin low price)
  end.

Definition minimum_seen (stored : option Q) (prices : list Q) : option Q :=
  fold_left lower prices stored.

(** The sale prices of the deals of [deals] that pass the filter and
    carry the identifier [k], in the order they are observed. *)
Fixpoint qualifying_prices (k : json) (deals : list Deal) : list Q :=
  match deals with
  | [] => []
  | d :: rest =>
      match sale_price d with
      | Some price =>
          if passes_strict_rules d && key_eqb (offer_id d) k
          then price :: qualifying_prices k rest
          else qualifying_prices k rest
      | None => qualifying_prices k rest
      end
  end.

(** Two stored lows that denote the same number, or are both absent. *)
Definition same_low (a b : option Q) : Prop :=
  match a, b with
  | Some x, Some y => x == y
  | None, None => True
  | _, _ => False
  end.

(** ** Text and slices

    A Python [str] is a sequence of code points, and [len] counts
    them. *)

Definition text : Type := list N.

Definition text_of (s : string) : text :=
  map N_of_ascii (list_ascii_of_string s).

(** [str(n)] for an [int]. *)
Definition str_of_int (z : Z) : text :=
  text_of (NilZero.string_of_int (Z.to_int z)).

(** The bound of a slice, as Python normalizes it: a negative index
    counts from the end, and the result is clamped to the list. *)
Definition slice_index (len i : Z) : Z :=
  if (i <? 0)%Z then Z.max 0 (i + len) else Z.min i len.

(** [l[start:stop]]. *)
Definition py_slice {A : Type} (l : list A) (start stop : Z) : list A :=
  let len := Z.of_nat (List.length l) in
  let first := slice_index len start in
  let last := slice_index len stop in
  firstn (Z.to_nat (last - first)) (skipn (Z.to_nat first) l).

(** ** The page text *)

Definition MAX_LENGTH : Z := 1950.

(** The three characters the source file has before and after the
    title, and the four that open the message for an empty list. *)
Definition header_mark : text := [8218; 250; 174]%N.

Definition no_deals_message : text :=
  [63743; 252; 242; 238]%N
  ++ text_of " No exceptional deals found that meet the strict rules at this time.".

(** Line 189. *)
Definition page_header (title : text) (page total_pages : Z) : text :=
  header_mark ++ text_of " **" ++ title ++ text_of "** (Page "
  ++ str_of_int (page + 1) ++ text_of "/" ++ str_of_int total_pages
  ++ text_of ") " ++ header_mark ++ [10; 10]%N.

(** Line 208. *)
Definition more_notice (remaining_deals : Z) : text :=
  text_of "...and " ++ str_of_int remaining_deals
  ++ text_of " more deals on this page (Character Limit Reached).".

Section Rendering.

(** The text of one deal (lines 200-203): an f-string over the deal's
    fields with [:.0f] and [:.2f] float formats.  The page logic only
    appends it and takes its length, so it is a parameter here. *)
Variable deal_content : Deal -> text.

(** The loop of lines 198-212; [page_len] is [len(page_deals)]. *)
Fixpoint add_deals (page_len : Z) (page_deals : list Deal)
  (response_msg : text) (deals_added_count : Z) : text :=
  match page_deals with
  | [] => response_msg
  | deal :: rest =>
      let content := deal_content deal in
      if (Z.of_nat (List.length response_msg) + Z.of_nat (List.length content)
          >? MAX_LENGTH)%Z
      then
        let remaining_deals := (page_len - deals_added_count)%Z in
        if (remaining_deals >? 0)%Z
        then response_msg ++ more_notice remaining_deals
        else response_msg
      else add_deals page_len rest (response_msg ++ content)
             (deals_added_count + 1)%Z
  end.

(** [format_deal_message(deals, page, total_pages, title)]. *)
Definition format_deal_message (deals : list Deal) (page total_pages : Z)
  (title : text) : text :=
  let start_index := (page * MAX_DEALS_PER_PAGE)%Z in
  let end_index := (start_index + MAX_DEALS_PER_PAGE)%Z in
  let page_deals := py_slice deals start_index end_index in
  let header := page_header title page total_pages in
  match deals with
  | [] => no_deals_message
  | _ => add_deals (Z.of_nat (List.length page_deals)) page_deals header 0
  end.

End Rendering.

(** The deals of page [page], as [format_deal_message] slices them. *)
Definition page_deals_of (deals : list Deal) (page : Z) : list Deal :=
  py_slice deals (page * MAX_DEALS_PER_PAGE)
    (page * MAX_DEALS_PER_PAGE + MAX_DEALS_PER_PAGE).

(** The pages [0 .. n-1]. *)
Definition page_numbers (n : Z) : list Z := map Z.of_nat (seq 0 (Z.to_nat n)).

(** [update_buttons]: the [disabled] flag it gives to the Previous
    button (the first child) and to the Next button (the second).  The
    view has its two decorated buttons, so the guard of line 234
    holds. *)
Definition previous_disabled (v : DealsView.t) : bool :=
  (DealsView.current_page v =? 0)%Z.

Definition next_disabled (v : DealsView.t) : bool :=
  (DealsView.current_page v =? DealsView.total_pages v - 1)%Z.

(** ** The settings file *)





(** ** More words for the properties *)

(** The state with [evs] appended to its trace. *)
Definition add_events (evs : list Event) (st : State) : State :=
  mkState (historical_lows_cache st) (persistence_file st)
    (all_qualified_deals st) (last_fetch_time st) (trace st ++ evs).

(** An answer after which the fetcher goes on to the next attempt: a
    timeout, a 429, or a status that is neither 200 nor an error. *)
Definition retryable (o : HttpOutcome) : bool :=
  match o with
  | Timeout => true
  | Response status_code _ =>
      negb (status_code =? 200)%Z
      && ((status_code =? 429)%Z || negb (is_error_status status_code))
  | RequestException => false
  end.

(** An answer after which the fetcher gives the feed up: a transport
    error, or a 4xx/5xx status other than 429. *)
Definition gives_up (o : HttpOutcome) : bool :=
  match o with
  | RequestException => true
  | Response status_code _ =>
      negb (status_code =? 200)%Z && negb (status_code =? 429)%Z
      && is_error_status status_code
  | Timeout => false
  end.

Definition is_ok_response (o : HttpOutcome) : bool :=
  match o with
  | Response status_code _ => (status_code =? 200)%Z
  | _ => false
  end.

(** The seconds slept by [time.sleep] in a stretch of the trace. *)
Fixpoint sleep_total (evs : list Event) : Q :=
  match evs with
  | [] => 0
  | EvSleep _ delay :: rest => delay + sleep_total rest
  | _ :: rest => sleep_total rest
  end.

Definition request_count (evs : list Event) : nat :=
  List.length (filter is_any_request evs).

(** A save of a hashable identifier at a price of 75 or more. *)
Definition qualifying_save (e : Event) : Prop :=
  match e with
  | EvSave key price => hashable key = true /\ 75 <= price
  | _ => True
  end.

(** A stretch of the trace with at most [n] requests whose saves
    are all qualifying, and a computation that appends such a stretch. *)
Definition within (n : nat) (evs : list Event) : Prop :=
  (request_count evs <= n)%nat /\ Forall qualifying_save evs.

Definition appends {A : Type} (R : list Event -> Prop) (m : M A) : Prop :=
  forall st, exists evs, trace (snd (m st)) = trace st ++ evs /\ R evs.

(** A deal of the feed [feed] that passes the filter and is labelled. *)
Definition accepted_from (feeds : list string) (d : Deal) : Prop :=
  passes_strict_rules d = true
  /\ status d <> None
  /\ In (feed_name d) feeds.

(** A computation that, when it returns, has only added deals that
    satisfy [P] at the end of the list [acc]. *)
Definition grows (P : Deal -> Prop) (acc : list Deal) (m : M (list Deal))
  : Prop :=
  forall st acc' st',
    m st = (Ret acc', st') -> exists new, acc' = acc ++ new /\ Forall P new.

(** A deal as the refresh cycle publishes it. *)
Definition published_deal (d : Deal) : Prop :=
  passes_strict_rules d = true
  /\ status d <> None
  /\ In (feed_name d) FEED_NAMES.

(** Highest discount first. *)
Definition by_discount_desc (a b : Deal) : Prop :=
  discount_percent b <= discount_percent a.


(** The list comprehension of lines 570-572. *)
Definition category_deals_list (feed : string) (all_deals : list Deal)
  : list Deal :=
  filter (fun deal => String.eqb (feed_name deal) feed) all_deals.

(** Two states that differ in their traces only. *)
Definition same_but_trace (st st' : State) : Prop :=
  historical_lows_cache st' = historical_lows_cache st
  /\ persistence_file st' = persistence_file st
  /\ all_qualified_deals st' = all_qualified_deals st
  /\ last_fetch_time st' = last_fetch_time st.

(** The deals of [deals] that pass the filter, labelled [GREAT_DEAL]. *)
Definition all_great_deals (deals : list Deal) : list Deal :=
  map (set_status GREAT_DEAL) (filter passes_strict_rules deals).

(** ** More sample inputs *)

(** What the tracker leaves after [sample_deals]. *)
Definition tracked_state : State :=
  snd (for_each (track_deal silent_world) sample_deals [] empty_state).

Definition tracked_deals : list Deal :=
  match fst (for_each (track_deal silent_world) sample_deals [] empty_state) with
  | Ret l => l
  | Raise _ => []
  end.

(** A world that times out once and then answers 500, and one whose
    200 answer carries a list where the object should be. *)
Definition server_error_world : World :=
  mkWorld
    (fun _ attempt =>
       match attempt with
       | O => Timeout
       | _ => Response 500 JNull
       end)
    (fun _ _ => 3 # 4) (fun _ => 12 # 10) true 1000 1020.

Definition bad_body_world : World :=
  mkWorld (fun _ _ => Response 200 (JArr []))
    (fun _ _ => 3 # 4) (fun _ => 12 # 10) true 1000 1020.

Definition is_object (v : json) : bool :=
  match v with
  | JObj _ => true
  | _ => false
  end.

(** A world in which the feed "All" answers 200 with two items and
    the other feeds time out, and what a cycle in it publishes. *)
Definition good_world : World :=
  mkWorld
    (fun feed _ =>
       if String.eqb feed "All"
       then Response 200
              (JObj [("Items", JArr [sample_item "a" 80 200;
                                     sample_item "b" 100 300])])
       else Timeout)
    (fun _ _ => 3 # 4) (fun _ => 12 # 10) true 2000 2020.

Definition published_state : State :=
  snd (refresh_cycle good_world empty_state).

Definition published_list : list Deal :=
  match fst (refresh_cycle good_world empty_state) with
  | Ret l => l
  | Raise _ => []
  end.

(** A request read 100 seconds after [good_world] published. *)
Definition soon_world : World :=
  mkWorld (fun _ _ => Timeout) (fun _ _ => 3 # 4) (fun _ => 12 # 10) true
    2120 2140.

(** A state with a published list, and a world in which no request
    is answered 200. *)
Definition outage_world : World :=
  mkWorld
    (fun _ attempt =>
       match attempt with
       | O => Response 429 JNull
       | 1%nat => Timeout
       | _ => Response 503 JNull
       end)
    (fun _ _ => 3 # 4) (fun _ => 12 # 10) true 5000 5030.

(** A rendering that gives every deal 650 characters, a title, and
    three deals: the first two fit, the third does not. *)
Definition wide_content (d : Deal) : text := repeat 65%N 650.

Definition three_deals : list Deal :=
  [sample_deal "a" 80 200; sample_deal "b" 100 300; sample_deal "c" 90 250].

(** A rendering that gives every deal 1924 characters: with the
    26 characters of the header of page 1 of 1 under the title "T",
    one deal fills the budget of 1950 exactly. *)
Definition tight_content (d : Deal) : text := repeat 65%N 1924.

(** The texts of the first [k] deals of a page, one after the other. *)
Definition shown (deal_content : Deal -> text) (k : nat)
  (page_deals : list Deal) : text :=
  List.concat (map deal_content (firstn k page_deals)).

(** A view on its second page of three. *)
Definition middle_view : DealsView.t :=
  DealsView.mk (repeat (sample_deal "a" 80 200) 23) "Top 23" 1 3.

(** ** Comparisons on rationals *)

Lemma Qltb_true_iff (x y : Q) : Qltb x y = true <-> x < y.
Proof.
  unfold Qltb. rewrite negb_true_iff. split; intro H.
  - apply Qnot_le_lt. intro Hle. apply Qle_bool_iff in Hle. congruence.
  - destruct (Qle_bool y x) eqn:E; [|reflexivity].
    apply Qle_bool_iff in E. exfalso. apply (Qlt_not_le _ _ H E).
Qed.

Lemma Qltb_false_iff (x y : Q) : Qltb x y = false <-> y <= x.
Proof.
  unfold Qltb. rewrite negb_false_iff. apply Qle_bool_iff.
Qed.

(** ** The deal filter *)


(** ** The deal normalizer *)



(** The normalizer never raises on an object, and what it returns is
    either the default deal or the deal with both minimums filled in. *)
Lemma process_deal_data_cases (raw : list (string * json)) (feed : string) :
  process_deal_data (JObj raw) feed = inr (default_deal raw feed)
  \/ exists sale_min list_min,
       minimum_kind "SalePrice" raw = Numeric sale_min
       /\ minimum_kind "ListPrice" raw = Numeric list_min
       /\ 0 < list_min /\ sale_min < list_min
       /\ process_deal_data (JObj raw) feed
          = inr (set_prices sale_min list_min (default_deal raw feed)).
Proof.
  unfold process_deal_data, minimum_kind.
  destruct (obj_get "SalePrice" raw) as [sp|]; [|left; reflexivity].
  destruct (obj_get "ListPrice" raw) as [lp|]; [|left; reflexivity].
  destruct (truthy sp && truthy lp); [|left; reflexivity].
  unfold extract_prices.
  destruct sp; try (left; reflexivity).
  destruct lp; try (left; reflexivity).
  destruct (obj_get "Minimum" kvs) as [sv|]; [|left; reflexivity].
  destruct (obj_get "Minimum" kvs0) as [lv|]; [|left; reflexivity].
  destruct (as_number sv) as [sale_min|]; [|left; reflexivity].
  destruct (as_number lv) as [list_min|]; [|left; reflexivity].
  destruct (Qltb 0 list_min) eqn:H0; [|left; reflexivity].
  destruct (Qltb sale_min list_min) eqn:H1; [|left; reflexivity].
  right. exists sale_min, list_min.
  apply Qltb_true_iff in H0, H1. repeat split; assumption.
Qed.




(** ** The historical-low dictionary *)

Lemma Qeq_bool_sym (x y : Q) : Qeq_bool x y = Qeq_bool y x.
Proof.
  destruct (Qeq_bool x y) eqn:E1, (Qeq_bool y x) eqn:E2; try reflexivity.
  - apply Qeq_bool_iff in E1. apply Qeq_sym, Qeq_bool_iff in E1. congruence.
  - apply Qeq_bool_iff in E2. apply Qeq_sym, Qeq_bool_iff in E2. congruence.
Qed.

Lemma key_eqb_sym (a b : json) : key_eqb a b = key_eqb b a.
Proof.
  destruct a, b; simpl; try reflexivity;
    try apply Qeq_bool_sym; apply String.eqb_sym.
Qed.

Lemma key_eqb_trans (a b c : json) :
  key_eqb a b = true -> key_eqb b c = true -> key_eqb a c = true.
Proof.
  destruct a, b; simpl; try discriminate; destruct c; simpl;
    try discriminate; try (intros; reflexivity);
    try (intros H1 H2; apply Qeq_bool_iff in H1, H2; apply Qeq_bool_iff;
         eapply Qeq_trans; eassumption).
  intros H1 H2. apply String.eqb_eq in H1, H2. apply String.eqb_eq. congruence.
Qed.

Lemma key_eqb_hashable (a b : json) :
  key_eqb a b = true -> hashable a = true /\ hashable b = true.
Proof. destruct a, b; simpl; try discriminate; intros; split; reflexivity. Qed.

Lemma key_eqb_refl (a : json) : hashable a = true -> key_eqb a a = true.
Proof.
  destruct a; simpl; try discriminate; intros _; try reflexivity.
  - destruct b; reflexivity.
  - apply Qeq_bool_iff. reflexivity.
  - apply String.eqb_refl.
Qed.

(** Keys that are equal select the same entry. *)
Lemma key_eqb_same_test (a b c : json) :
  key_eqb a b = true -> key_eqb c a = key_eqb c b.
Proof.
  intro Hab.
  destruct (key_eqb c a) eqn:Ea, (key_eqb c b) eqn:Eb; try reflexivity.
  - rewrite (key_eqb_trans c a b Ea Hab) in Eb. discriminate.
  - rewrite key_eqb_sym in Hab. rewrite (key_eqb_trans c b a Eb Hab) in Ea.
    discriminate.
Qed.

Lemma dict_get_same_key (a b : json) (d : LowsDict) :
  key_eqb a b = true -> dict_get a d = dict_get b d.
Proof.
  intro Hab. induction d as [|[k v] rest IH]; simpl; [reflexivity|].
  rewrite (key_eqb_same_test a b k Hab), IH. reflexivity.
Qed.

Lemma dict_get_set_same (k k2 : json) (v : Q) (d : LowsDict) :
  key_eqb k k2 = true -> dict_get k2 (dict_set k v d) = Some v.
Proof.
  intro Hk. induction d as [|[k' v'] rest IH]; simpl.
  - rewrite Hk. reflexivity.
  - destruct (key_eqb k' k) eqn:E; simpl.
    + rewrite <- (key_eqb_same_test k k2 k' Hk), E. reflexivity.
    + rewrite <- (key_eqb_same_test k k2 k' Hk), E. exact IH.
Qed.

Lemma dict_get_set_other (k k2 : json) (v : Q) (d : LowsDict) :
  key_eqb k k2 = false -> dict_get k2 (dict_set k v d) = dict_get k2 d.
Proof.
  intro Hk. induction d as [|[k' v'] rest IH]; simpl.
  - rewrite Hk. reflexivity.
  - destruct (key_eqb k' k) eqn:E; simpl.
    + destruct (key_eqb k' k2) eqn:E2; [|reflexivity].
      rewrite key_eqb_sym in E.
      rewrite (key_eqb_trans k k' k2 E E2) in Hk. discriminate.
    + rewrite IH. reflexivity.
Qed.

(** ** The historical-low tracker *)

Lemma passes_has_price (d : Deal) :
  passes_strict_rules d = true -> exists price, sale_price d = Some price.
Proof.
  unfold passes_strict_rules. destruct (sale_price d) as [p|];
    [intros _; exists p; reflexivity | discriminate].
Qed.

(** What one turn of the tracker does, case by case. *)
Lemma track_deal_cases (w : World) (d : Deal) (acc : list Deal) (st : State) :
  hashable (offer_id d) = true ->
  (passes_strict_rules d = false /\ track_deal w d acc st = (Ret acc, st))
  \/ exists price,
       passes_strict_rules d = true /\ sale_price d = Some price
       /\ let current_low := dict_get (offer_id d) (historical_lows_cache st) in
          (below_low price current_low = false
           /\ track_deal w d acc st
              = (Ret (acc ++ [set_status GREAT_DEAL d]), st))
          \/ (below_low price current_low = true
              /\ track_deal w d acc st
                 = (Ret (acc ++ [set_status
                                   match current_low with
                                   | None => NEW_LOW
                                   | Some low => PRICE_DROP low
                                   end d]),
                    mkState
                      (dict_set (offer_id d) price (historical_lows_cache st))
                      (if disk_ok w
                       then FileTable (dict_set (offer_id d) price
                                         (historical_lows_cache st))
                       else persistence_file st)
                      (all_qualified_deals st) (last_fetch_time st)
                      (trace st ++ [EvSave (offer_id d) price]))).
Proof.
  intro Hh. unfold track_deal.
  destruct (passes_strict_rules d) eqn:Hp; [|left; split; reflexivity].
  right. destruct (passes_has_price d Hp) as [price Hs].
  exists price. split; [reflexivity|]. split; [assumption|].
  rewrite Hs. unfold bind, cache_get, save_historical_low, ret. rewrite Hh.
  cbv zeta.
  destruct (below_low price (dict_get (offer_id d) (historical_lows_cache st)))
    eqn:Hb.
  - right. split; reflexivity.
  - left. split; reflexivity.
Qed.

Lemma same_low_refl (a : option Q) : same_low a a.
Proof. destruct a; simpl; [reflexivity | exact I]. Qed.

Lemma same_low_trans (a b c : option Q) :
  same_low a b -> same_low b c -> same_low a c.
Proof.
  destruct a, b, c; simpl; try contradiction; try (intros; exact I).
  intros H1 H2. rewrite H1. exact H2.
Qed.

Lemma same_low_lower (a b : option Q) (p : Q) :
  same_low a b -> same_low (lower a p) (lower b p).
Proof.
  destruct a, b; simpl; try contradiction; intro H.
  - rewrite H. reflexivity.
  - reflexivity.
Qed.

Lemma same_low_minimum_seen (prices : list Q) :
  forall a b, same_low a b ->
  same_low (minimum_seen a prices) (minimum_seen b prices).
Proof.
  induction prices as [|p rest IH]; intros a b H; simpl; [exact H|].
  apply IH, same_low_lower, H.
Qed.

Lemma minimum_seen_le (prices : list Q) :
  forall c, exists m, minimum_seen (Some c) prices = Some m /\ m <= c.
Proof.
  induction prices as [|p rest IH]; intro c; simpl.
  - exists c. split; [reflexivity | apply Qle_refl].
  - destruct (IH (Qmin c p)) as (m & Hm & Hle). exists m. split; [exact Hm|].
    eapply Qle_trans; [exact Hle | apply Q.le_min_l].
Qed.

Lemma qualifying_prices_cons (k : json) (d : Deal) (rest : list Deal) :
  qualifying_prices k (d :: rest)
  = qualifying_prices k [d] ++ qualifying_prices k rest.
Proof.
  simpl. destruct (sale_price d); [|reflexivity].
  destruct (passes_strict_rules d && key_eqb (offer_id d) k); reflexivity.
Qed.

(** One observation: the stored low of [k] becomes the minimum of what
    was stored and what was observed, and it is left as it was unless
    the observed price is strictly below it. *)
Lemma track_deal_low (w : World) (k : json) (d : Deal) (acc : list Deal)
  (st : State) :
  hashable (offer_id d) = true ->
  exists acc' st',
    track_deal w d acc st = (Ret acc', st')
    /\ same_low (dict_get k (historical_lows_cache st'))
         (minimum_seen (dict_get k (historical_lows_cache st))
            (qualifying_prices k [d]))
    /\ ((forall p, In p (qualifying_prices k [d]) ->
         below_low p (dict_get k (historical_lows_cache st)) = false) ->
        dict_get k (historical_lows_cache st')
        = dict_get k (historical_lows_cache st)).
Proof.
  intro Hh.
  destruct (track_deal_cases w d acc st Hh)
    as [[Hp Hrun] | (price & Hp & Hs & [[Hb Hrun] | [Hb Hrun]])];
    rewrite Hrun; do 2 eexists; (split; [reflexivity|]); simpl; rewrite ?Hs, Hp;
    simpl.
  - destruct (sale_price d); split; try apply same_low_refl; reflexivity.
  - destruct (key_eqb (offer_id d) k) eqn:Hk; simpl;
      [|split; [apply same_low_refl | reflexivity]].
    split; [|reflexivity].
    rewrite <- (dict_get_same_key _ _ (historical_lows_cache st) Hk).
    unfold below_low in Hb.
    destruct (dict_get (offer_id d) (historical_lows_cache st)) as [low|];
      [|discriminate].
    simpl. apply Qltb_false_iff in Hb. symmetry. apply Q.min_l. exact Hb.
  - destruct (key_eqb (offer_id d) k) eqn:Hk; simpl.
    + rewrite (dict_get_set_same _ _ price (historical_lows_cache st) Hk).
      rewrite <- (dict_get_same_key _ _ (historical_lows_cache st) Hk).
      split.
      * unfold below_low in Hb.
        destruct (dict_get (offer_id d) (historical_lows_cache st)) as [low|];
          simpl; [|reflexivity].
        apply Qltb_true_iff in Hb. symmetry. apply Q.min_r.
        apply Qlt_le_weak. exact Hb.
      * intro Hall. rewrite (Hall price (or_introl eq_refl)) in Hb.
        discriminate.
    + rewrite (dict_get_set_other _ _ price (historical_lows_cache st) Hk).
      split; [apply same_low_refl | reflexivity].
Qed.

Lemma track_deals_low (w : World) (k : json) (deals : list Deal) :
  forall (acc : list Deal) (st : State),
  Forall (fun d => hashable (offer_id d) = true) deals ->
  exists acc' st',
    for_each (track_deal w) deals acc st = (Ret acc', st')
    /\ same_low (dict_get k (historical_lows_cache st'))
         (minimum_seen (dict_get k (historical_lows_cache st))
            (qualifying_prices k deals))
    /\ ((forall p, In p (qualifying_prices k deals) ->
         below_low p (dict_get k (historical_lows_cache st)) = false) ->
        dict_get k (historical_lows_cache st')
        = dict_get k (historical_lows_cache st)).
Proof.
  induction deals as [|d rest IH]; intros acc st Hall.
  - exists acc, st. simpl. repeat split; [apply same_low_refl].
  - inversion Hall as [|? ? Hd Hrest]; subst.
    destruct (track_deal_low w k d acc st Hd) as (acc1 & st1 & Hrun1 & Hlow1 & Hkeep1).
    destruct (IH acc1 st1 Hrest) as (acc2 & st2 & Hrun2 & Hlow2 & Hkeep2).
    exists acc2, st2. split.
    { simpl. unfold bind. rewrite Hrun1. exact Hrun2. }
    rewrite qualifying_prices_cons. split.
    + unfold minimum_seen. rewrite fold_left_app.
      eapply same_low_trans; [exact Hlow2|].
      apply same_low_minimum_seen. exact Hlow1.
    + intro Hnone.
      assert (H1 : dict_get k (historical_lows_cache st1)
                   = dict_get k (historical_lows_cache st)).
      { apply Hkeep1. intros p Hin. apply Hnone, in_or_app. left. exact Hin. }
      rewrite <- H1. apply Hkeep2. intros p Hin. rewrite H1.
      apply Hnone, in_or_app. right. exact Hin.
Qed.



(** The specification's scenario: 80, 80 again, then 79 for the same
    identifier leave 79 stored, and the labels are [NEW_LOW],
    [GREAT_DEAL] and [PRICE_DROP 80]. *)
Example tracker_scenario :
  let '(out, st') :=
    for_each (track_deal silent_world) sample_deals [] empty_state in
  historical_lows_cache st' = [(JStr "a", 79); (JStr "b", 100)]
  /\ persistence_file st' = FileTable [(JStr "a", 79); (JStr "b", 100)]
  /\ match out with
     | Ret acc => map status acc
                  = [Some NEW_LOW; Some GREAT_DEAL; Some NEW_LOW;
                     Some (PRICE_DROP 80)]
     | Raise _ => False
     end.
Proof. vm_compute. repeat split. Qed.



(** ** Frame properties of the refresh cycle *)

Lemma Tracks_refl (w : World) (st : State) : Tracks w st st [].
Proof.
  constructor; try reflexivity.
  - symmetry. apply app_nil_r.
  - intros k v H. exists v. split; [exact H | apply Qle_refl].
  - intros k p [].
  - discriminate.
  - intros _. split; reflexivity.
Qed.

Lemma Tracks_trans (w : World) (st1 st2 st3 : State) (evs1 evs2 : list Event) :
  Tracks w st1 st2 evs1 -> Tracks w st2 st3 evs2 ->
  Tracks w st1 st3 (evs1 ++ evs2).
Proof.
  intros H1 H2. constructor.
  - rewrite (tr_trace _ _ _ _ H2), (tr_trace _ _ _ _ H1). symmetry. apply app_assoc.
  - rewrite (tr_deals _ _ _ _ H2). apply (tr_deals _ _ _ _ H1).
  - rewrite (tr_time _ _ _ _ H2). apply (tr_time _ _ _ _ H1).
  - intros k v Hk.
    destruct (tr_mono _ _ _ _ H1 k v Hk) as (v1 & Hv1 & Hle1).
    destruct (tr_mono _ _ _ _ H2 k v1 Hv1) as (v2 & Hv2 & Hle2).
    exists v2. split; [exact Hv2 | eapply Qle_trans; eassumption].
  - intros k p Hin. apply in_app_or in Hin. destruct Hin as [Hin | Hin].
    + destruct (tr_saves _ _ _ _ H1 k p Hin) as (v1 & Hv1 & Hle1).
      destruct (tr_mono _ _ _ _ H2 k v1 Hv1) as (v2 & Hv2 & Hle2).
      exists v2. split; [exact Hv2 | eapply Qle_trans; eassumption].
    + apply (tr_saves _ _ _ _ H2 k p Hin).
  - unfold has_save. rewrite existsb_app. intros Hs Hd.
    destruct (existsb is_save evs2) eqn:E2.
    + apply (tr_file _ _ _ _ H2 E2 Hd).
    + rewrite orb_false_r in Hs.
      destruct (tr_idle _ _ _ _ H2 E2) as [Hc Hf].
      rewrite Hc, Hf. apply (tr_file _ _ _ _ H1 Hs Hd).
  - unfold has_save. rewrite existsb_app. intro Hs.
    apply orb_false_iff in Hs. destruct Hs as [E1 E2].
    destruct (tr_idle _ _ _ _ H1 E1) as [Hc1 Hf1].
    destruct (tr_idle _ _ _ _ H2 E2) as [Hc2 Hf2].
    split; congruence.
  - intro Hd. rewrite (tr_nodisk _ _ _ _ H2 Hd). apply (tr_nodisk _ _ _ _ H1 Hd).
Qed.

Lemma tracked_ret {A : Type} (w : World) (a : A) : tracked w (ret a).
Proof. intro st. exists []. apply Tracks_refl. Qed.

Lemma tracked_raise {A : Type} (w : World) (e : PyExn) :
  tracked w (@raise A e).
Proof. intro st. exists []. apply Tracks_refl. Qed.

Lemma tracked_bind {A B : Type} (w : World) (m : M A) (k : A -> M B) :
  tracked w m -> (forall a, tracked w (k a)) -> tracked w (bind m k).
Proof.
  intros Hm Hk st. unfold bind.
  destruct (Hm st) as [evs1 H1].
  destruct (m st) as [[a | e] st1] eqn:E; simpl in H1.
  - destruct (Hk a st1) as [evs2 H2]. exists (evs1 ++ evs2).
    eapply Tracks_trans; eassumption.
  - exists evs1. exact H1.
Qed.

Lemma tracked_for_each {A B : Type} (w : World) (body : A -> B -> M B)
  (xs : list A) :
  (forall x acc, tracked w (body x acc)) ->
  forall acc, tracked w (for_each body xs acc).
Proof.
  intro Hbody. induction xs as [|x rest IH]; intro acc; simpl.
  - apply tracked_ret.
  - apply tracked_bind; [apply Hbody | exact IH].
Qed.

Lemma tracked_emit (w : World) (e : Event) :
  is_save e = false -> tracked w (emit e).
Proof.
  intros He st. exists [e]. unfold emit. simpl. constructor; simpl;
    try reflexivity.
  - intros k v H. exists v. split; [exact H | apply Qle_refl].
  - intros k p [Heq | []]. subst e. discriminate.
  - rewrite He. discriminate.
  - intros _. split; reflexivity.
Qed.

Lemma tracked_track_deal (w : World) (d : Deal) (acc : list Deal) :
  tracked w (track_deal w d acc).
Proof.
  intro st. destruct (hashable (offer_id d)) eqn:Hh.
  - destruct (track_deal_cases w d acc st Hh)
      as [[_ Hrun] | (price & _ & _ & [[_ Hrun] | [Hb Hrun]])];
      rewrite Hrun; simpl; try (exists []; apply Tracks_refl).
    exists [EvSave (offer_id d) price]. constructor; simpl; try reflexivity.
    + intros k v Hk. destruct (key_eqb (offer_id d) k) eqn:Ek.
      * rewrite (dict_get_set_same _ _ price _ Ek). exists price.
        split; [reflexivity|].
        rewrite (dict_get_same_key _ _ (historical_lows_cache st) Ek), Hk in Hb.
        simpl in Hb. apply Qltb_true_iff in Hb. apply Qlt_le_weak, Hb.
      * rewrite (dict_get_set_other _ _ price _ Ek). exists v.
        split; [exact Hk | apply Qle_refl].
    + intros k p [Heq | []]. injection Heq as <- <-.
      rewrite (dict_get_set_same _ _ price _ (key_eqb_refl _ Hh)).
      exists price. split; [reflexivity | apply Qle_refl].
    + intros _ Hd. rewrite Hd. reflexivity.
    + discriminate.
    + intros Hd. rewrite Hd. reflexivity.
  - exists []. unfold track_deal.
    destruct (passes_strict_rules d); [|apply Tracks_refl].
    destruct (sale_price d); [|apply Tracks_refl].
    unfold bind, cache_get. rewrite Hh. apply Tracks_refl.
Qed.

Lemma tracked_process_item (w : World) (feed : string) (raw : json)
  (acc : list Deal) :
  tracked w (process_item w feed raw acc).
Proof.
  unfold process_item. destruct (process_deal_data raw feed).
  - apply tracked_raise.
  - apply tracked_track_deal.
Qed.

Lemma tracked_fetch_attempts (w : World) (feed : string)
  (attempts : list nat) :
  tracked w (fetch_attempts w feed attempts).
Proof.
  induction attempts as [|attempt rest IH]; simpl.
  - apply tracked_ret.
  - apply tracked_bind; [apply tracked_emit; reflexivity|]. intros _.
    destruct (http w feed attempt) as [status_code body| |];
      [| exact IH | apply tracked_ret].
    destruct (status_code =? 200)%Z.
    { destruct body; try apply tracked_raise. apply tracked_ret. }
    destruct (status_code =? 429)%Z.
    { apply tracked_bind; [apply tracked_emit; reflexivity|]. intros _.
      exact IH. }
    destruct (is_error_status status_code); [apply tracked_ret | exact IH].
Qed.

Lemma tracked_fetch_and_track (w : World) (feed : string) (acc : list Deal) :
  tracked w (fetch_and_track w feed acc).
Proof.
  unfold fetch_and_track, fetch_feed_data.
  apply tracked_bind; [apply tracked_fetch_attempts|]. intro deals_data.
  destruct (py_iter deals_data); [|apply tracked_raise].
  apply tracked_for_each. intros. apply tracked_process_item.
Qed.

Lemma tracked_process_feed (w : World) (feed : string) (acc : list Deal) :
  tracked w (process_feed w feed acc).
Proof.
  unfold process_feed.
  apply tracked_bind; [apply tracked_fetch_and_track|]. intro acc'.
  apply tracked_bind; [apply tracked_emit; reflexivity|]. intros _.
  apply tracked_ret.
Qed.

Lemma tracked_feeds (w : World) (feeds : list string) (acc : list Deal) :
  tracked w (for_each (process_feed w) feeds acc).
Proof. apply tracked_for_each. intros. apply tracked_process_feed. Qed.




Lemma tracked_extends {A : Type} (w : World) (m : M A) :
  tracked w m -> extends m.
Proof.
  intros H st. destruct (H st) as [evs Ht]. exists evs.
  apply (tr_trace _ _ _ _ Ht).
Qed.

Lemma extends_bind {A B : Type} (m : M A) (k : A -> M B) :
  extends m -> (forall a, extends (k a)) -> extends (bind m k).
Proof.
  intros Hm Hk st. unfold bind. destruct (Hm st) as [evs1 H1].
  destruct (m st) as [[a | e] st1]; simpl in H1.
  - destruct (Hk a st1) as [evs2 H2]. exists (evs1 ++ evs2).
    rewrite H2, H1. symmetry. apply app_assoc.
  - exists evs1. exact H1.
Qed.

Lemma first_event_bind {A B : Type} (e : Event) (m : M A) (k : A -> M B) :
  first_event e m -> (forall a, extends (k a)) -> first_event e (bind m k).
Proof.
  intros Hm Hk st. unfold bind. destruct (Hm st) as [evs1 H1].
  destruct (m st) as [[a | e'] st1]; simpl in H1.
  - destruct (Hk a st1) as [evs2 H2]. exists (evs1 ++ evs2).
    rewrite H2, H1. rewrite <- app_assoc. reflexivity.
  - exists evs1. exact H1.
Qed.

Lemma first_event_emit {B : Type} (e : Event) (k : unit -> M B) :
  (forall a, extends (k a)) -> first_event e (bind (emit e) k).
Proof.
  intros Hk st. unfold bind, emit.
  match goal with |- context [k tt ?s] => destruct (Hk tt s) as [evs H] end.
  exists evs. rewrite H. simpl. rewrite <- app_assoc. reflexivity.
Qed.

Lemma extends_publish (w : World) (deals : list Deal) :
  extends (publish w deals).
Proof. intro st. exists []. simpl. symmetry. apply app_nil_r. Qed.

(** The loop over the feeds starts with the first request to the first
    feed. *)
Lemma feeds_loop_requests (w : World) (feed : string) (rest : list string)
  (acc : list Deal) :
  first_event (EvRequest feed 0)
    (deals <- for_each (process_feed w) (feed :: rest) acc ;; publish w deals).
Proof.
  apply first_event_bind; [|intro; apply extends_publish].
  simpl. apply first_event_bind;
    [|intro; apply (tracked_extends w), tracked_feeds].
  unfold process_feed. apply first_event_bind.
  2:{ intro. apply (tracked_extends w).
      apply tracked_bind; [apply tracked_emit; reflexivity|].
      intros _. apply tracked_ret. }
  unfold fetch_and_track. apply first_event_bind.
  2:{ intro deals_data. apply (tracked_extends w).
      destruct (py_iter deals_data); [|apply tracked_raise].
      apply tracked_for_each. intros. apply tracked_process_item. }
  unfold fetch_feed_data. simpl. apply first_event_emit. intros _.
  apply (tracked_extends w).
  pose proof (tracked_fetch_attempts w feed [1%nat; 2%nat]) as Hrest.
  destruct (http w feed 0%nat) as [status_code body| |];
    [| exact Hrest | apply tracked_ret].
  destruct (status_code =? 200)%Z.
  { destruct body; try apply tracked_raise. apply tracked_ret. }
  destruct (status_code =? 429)%Z.
  { apply tracked_bind; [apply tracked_emit; reflexivity|]. intros _.
    exact Hrest. }
  destruct (is_error_status status_code); [apply tracked_ret | exact Hrest].
Qed.

(** A cycle starts with the first request to the first feed. *)
Lemma refresh_cycle_requests (w : World) (st : State) :
  exists evs,
    trace (snd (refresh_cycle w st)) = trace st ++ EvRequest "All" 0 :: evs.
Proof.
  unfold refresh_cycle.
  change (bind load_historical_lows
            (fun _ => deals <- for_each (process_feed w) FEED_NAMES [] ;;
                      publish w deals) st)
    with ((deals <- for_each (process_feed w) FEED_NAMES [] ;; publish w deals)
            (snd (load_historical_lows st))).
  destruct (feeds_loop_requests w "All" (tl FEED_NAMES) []
              (snd (load_historical_lows st))) as [evs H].
  exists evs. exact H.
Qed.

(** ** The result cache *)

Lemma call_when_fresh (w : World) (st : State) :
  clock_start w - last_fetch_time st < 300 ->
  fetch_and_filter_deals_internal w false st
  = (Ret (all_qualified_deals st), st).
Proof.
  intro Hage. unfold fetch_and_filter_deals_internal, cache_is_fresh,
    MAX_CACHE_AGE_SECONDS. simpl.
  apply Qltb_true_iff in Hage. rewrite Hage. reflexivity.
Qed.

Lemma call_when_stale (w : World) (force_refresh : bool) (st : State) :
  force_refresh = true \/ 300 <= clock_start w - last_fetch_time st ->
  fetch_and_filter_deals_internal w force_refresh st = refresh_cycle w st.
Proof.
  unfold fetch_and_filter_deals_internal, cache_is_fresh,
    MAX_CACHE_AGE_SECONDS.
  intros [-> | Hage]; [reflexivity|].
  apply Qltb_false_iff in Hage. rewrite Hage, andb_false_r. reflexivity.
Qed.

(** C5, as amended.  A call that is not forced and reads the clock less
    than 300 seconds after the published timestamp returns the
    published list and leaves the whole state, trace of requests
    included, as it was.  A call that is forced, or reads the clock 300
    seconds or more after the timestamp, runs a refresh cycle, which
    starts with a request to the first feed.  So the state changes only
    when the call is forced or the age is at least 300 seconds. *)
Theorem fresh_cache_is_served (w : World) (force_refresh : bool) (st : State) :
  (force_refresh = false ->
   clock_start w - last_fetch_time st < 300 ->
   fetch_and_filter_deals_internal w force_refresh st
   = (Ret (all_qualified_deals st), st))
  /\ (force_refresh = true \/ 300 <= clock_start w - last_fetch_time st ->
      fetch_and_filter_deals_internal w force_refresh st = refresh_cycle w st
      /\ exists evs,
           trace (snd (fetch_and_filter_deals_internal w force_refresh st))
           = trace st ++ EvRequest "All" 0 :: evs)
  /\ (snd (fetch_and_filter_deals_internal w force_refresh st) <> st ->
      force_refresh = true \/ 300 <= clock_start w - last_fetch_time st).
Proof.
  split; [intros -> Hage; apply call_when_fresh, Hage|].
  split.
  - intro Hstale. rewrite (call_when_stale w force_refresh st Hstale).
    split; [reflexivity | apply refresh_cycle_requests].
  - intro Hne. destruct force_refresh; [left; reflexivity|].
    destruct (Qlt_le_dec (clock_start w - last_fetch_time st) 300)
      as [Hlt | Hle]; [|right; exact Hle].
    rewrite (call_when_fresh w st Hlt) in Hne. contradiction.
Qed.

Lemma fresh_cache_is_served_witness :
  (false = false /\ clock_start later_world - last_fetch_time fresh_state < 300)
  /\ fetch_and_filter_deals_internal later_world false fresh_state
     = (Ret (all_qualified_deals fresh_state), fresh_state).
Proof.
  assert (H : clock_start later_world - last_fetch_time fresh_state < 300)
    by reflexivity.
  split; [split; [reflexivity | exact H]|].
  apply (proj1 (fresh_cache_is_served later_world false fresh_state) eq_refl H).
Defined.

(** C5, as stated, fails at the boundary: read exactly 300 seconds
    after the timestamp, a call that is not forced runs a cycle and
    requests the feeds, although the age does not exceed the window. *)
Lemma refresh_at_exact_window_age :
  clock_start silent_world - last_fetch_time boundary_state == 300
  /\ ~ 300 < clock_start silent_world - last_fetch_time boundary_state
  /\ exists evs,
       trace (snd (fetch_and_filter_deals_internal silent_world false
                     boundary_state))
       = EvRequest "All" 0 :: evs
       /\ List.length (filter is_any_request (EvRequest "All" 0 :: evs)) = 33%nat.
Proof.
  split; [reflexivity|]. split; [intro H; discriminate H|].
  eexists. split; vm_compute; reflexivity.
Qed.




(** ** The low-price store across an aborted cycle *)

(** Reloading a synced state changes nothing, and a cycle that can
    write the file leaves the state synced, so what the tracker has
    stored carries over from one cycle to the next. *)
Lemma load_synced (st : State) :
  synced st -> load_historical_lows st = (Ret tt, st).
Proof.
  unfold synced, load_historical_lows. destruct st as [cache file deals t tr].
  simpl. intros [-> | ->]; reflexivity.
Qed.

Lemma Tracks_synced (w : World) (st st' : State) (evs : list Event) :
  disk_ok w = true -> Tracks w st st' evs -> synced st -> synced st'.
Proof.
  intros Hdisk Ht Hs. unfold synced.
  destruct (has_save evs) eqn:Hsave.
  - right. apply (tr_file _ _ _ _ Ht Hsave Hdisk).
  - destruct (tr_idle _ _ _ _ Ht Hsave) as [Hc Hf]. rewrite Hc, Hf. exact Hs.
Qed.

Lemma publish_synced {A : Type} (w : World) (m : M A)
  (k : A -> list Deal) (st : State) :
  disk_ok w = true -> tracked w m -> synced st ->
  synced (snd ((a <- m ;; publish w (k a)) st)).
Proof.
  intros Hdisk Hm Hs. unfold bind.
  destruct (Hm st) as [evs Ht].
  pose proof (Tracks_synced w _ _ _ Hdisk Ht Hs) as Hs'.
  destruct (m st) as [[a | e] st1]; exact Hs'.
Qed.

Lemma refresh_cycle_synced (w : World) (st : State) :
  disk_ok w = true -> synced st -> synced (snd (refresh_cycle w st)).
Proof.
  intros Hdisk Hs. unfold refresh_cycle.
  change (bind load_historical_lows
            (fun _ => deals <- for_each (process_feed w) FEED_NAMES [] ;;
                      publish w deals) st)
    with ((deals <- for_each (process_feed w) FEED_NAMES [] ;; publish w deals)
            (snd (load_historical_lows st))).
  rewrite (load_synced st Hs).
  apply (publish_synced w _ (fun deals => deals) st Hdisk);
    [apply tracked_feeds | exact Hs].
Qed.



(** The aborted cycle of [abort_world] did change the low-price store:
    the save of 80 for "a" is in the dictionary and in the file, and
    the published list is the one of before. *)
Example aborted_cycle_changed_lows :
  historical_lows_cache fresh_state = []
  /\ persistence_file fresh_state = FileAbsent
  /\ historical_lows_cache aborted_state = [(JStr "a", 80)]
  /\ persistence_file aborted_state = FileTable [(JStr "a", 80)]
  /\ trace aborted_state = [EvRequest "All" 0; EvSave (JStr "a") 80]
  /\ all_qualified_deals aborted_state = all_qualified_deals fresh_state.
Proof. vm_compute. repeat split. Qed.


(** ** The feed fetcher *)

Lemma fetch_attempts_trace (w : World) (feed : string) (attempts : list nat) :
  forall st, exists made left,
    attempts = made ++ left
    /\ trace (snd (fetch_attempts w feed attempts st))
       = trace st ++ flat_map (attempt_events w feed) made.
Proof.
  induction attempts as [|attempt rest IH]; intro st.
  - exists [], []. split; [reflexivity|]. simpl. symmetry. apply app_nil_r.
  - simpl fetch_attempts. unfold bind at 1. unfold emit at 1.
    cbv beta iota.
    set (st1 := mkState _ _ _ _ (trace st ++ [EvRequest feed attempt])).
    assert (Hstop : forall (A : Type) (r : Outcome A),
               is_rate_limited (http w feed attempt) = false ->
               exists made left,
                 attempt :: rest = made ++ left
                 /\ trace (snd (r, st1))
                    = trace st ++ flat_map (attempt_events w feed) made).
    { intros A r Hno. exists [attempt], rest. split; [reflexivity|].
      simpl. unfold attempt_events. rewrite Hno. reflexivity. }
    assert (Hgo : forall st2,
               trace st2 = trace st ++ attempt_events w feed attempt ->
               exists made left,
                 attempt :: rest = made ++ left
                 /\ trace (snd (fetch_attempts w feed rest st2))
                    = trace st ++ flat_map (attempt_events w feed) made).
    { intros st2 Hst2. destruct (IH st2) as (made & left & Hsplit & Htr).
      exists (attempt :: made), left. split; [rewrite Hsplit; reflexivity|].
      rewrite Htr, Hst2. simpl. rewrite <- app_assoc. reflexivity. }
    destruct (http w feed attempt) as [status_code body| |] eqn:Hhttp.
    + destruct (status_code =? 200)%Z eqn:H200.
      { apply Z.eqb_eq in H200. subst status_code.
        destruct body; apply (Hstop json); reflexivity. }
      destruct (status_code =? 429)%Z eqn:H429.
      { unfold bind, emit. simpl. apply Hgo. simpl.
        unfold attempt_events. rewrite Hhttp. simpl. rewrite H429.
        rewrite <- app_assoc. reflexivity. }
      destruct (is_error_status status_code).
      { apply (Hstop json). simpl. exact H429. }
      apply Hgo. simpl. unfold attempt_events. rewrite Hhttp. simpl.
      rewrite H429. reflexivity.
    + apply Hgo. simpl. unfold attempt_events. rewrite Hhttp.
      reflexivity.
    + apply (Hstop json). reflexivity.
Qed.

Lemma attempt_events_requests (w : World) (feed : string) (made : list nat) :
  List.length (filter is_any_request (flat_map (attempt_events w feed) made))
  = List.length made.
Proof.
  induction made as [|attempt rest IH]; [reflexivity|].
  simpl. destruct (is_rate_limited (http w feed attempt)); simpl;
    rewrite IH; reflexivity.
Qed.

(** The delay of line 109 is the power of two plus the jitter, so it
    lies between [2^i + 0.5] and [2^i + 1]. *)
Lemma backoff_delay_bounds (w : World) (feed : string) (attempt : nat) :
  jitter_in_range w ->
  inject_Z (2 ^ Z.of_nat attempt) + (1 # 2) <= backoff_delay w feed attempt
  /\ backoff_delay w feed attempt <= inject_Z (2 ^ Z.of_nat attempt) + 1.
Proof.
  intro Hj. destruct (Hj feed attempt) as [Hlo Hhi]. unfold backoff_delay.
  split; apply Qplus_le_r; assumption.
Qed.

(** C8.  A fetch makes at most three requests, the attempts 0, 1, 2 in
    order; an attempt answered with 429 is followed by a wait of
    [backoff_delay], and no other wait is made; and that delay lies
    between [2^i + 0.5] and [2^i + 1.5]. *)
Theorem fetch_feed_data_backoff (w : World) (feed : string) (st : State) :
  jitter_in_range w ->
  exists n,
    (n <= 3)%nat
    /\ trace (snd (fetch_feed_data w feed st))
       = trace st ++ flat_map (attempt_events w feed) (seq 0 n)
    /\ List.length
         (filter is_any_request
            (flat_map (attempt_events w feed) (seq 0 n))) = n
    /\ forall attempt,
         inject_Z (2 ^ Z.of_nat attempt) + (1 # 2)
         <= backoff_delay w feed attempt
         <= inject_Z (2 ^ Z.of_nat attempt) + (3 # 2).
Proof.
  intro Hj. unfold fetch_feed_data.
  destruct (fetch_attempts_trace w feed (seq 0 3) st)
    as (made & left & Hsplit & Htr).
  assert (Hmade : made = seq 0 (List.length made) /\ (List.length made <= 3)%nat).
  { simpl in Hsplit.
    destruct made as [|a0 [|a1 [|a2 [|a3 made]]]]; simpl in Hsplit;
      inversion Hsplit; subst; simpl; split; try reflexivity; try lia. }
  destruct Hmade as [Hseq Hlen].
  exists (List.length made). split; [exact Hlen|].
  rewrite <- Hseq. split; [exact Htr|].
  split; [apply attempt_events_requests|].
  intro attempt. destruct (backoff_delay_bounds w feed attempt Hj) as [Hlo Hhi].
  split; [exact Hlo|].
  eapply Qle_trans; [exact Hhi|]. apply Qplus_le_r. discriminate.
Qed.

Lemma fetch_feed_data_backoff_witness :
  jitter_in_range rate_limited_world
  /\ exists n,
       (n <= 3)%nat
       /\ trace (snd (fetch_feed_data rate_limited_world "All" empty_state))
          = trace empty_state
            ++ flat_map (attempt_events rate_limited_world "All") (seq 0 n)
       /\ List.length
            (filter is_any_request
               (flat_map (attempt_events rate_limited_world "All") (seq 0 n)))
          = n
       /\ forall attempt,
            inject_Z (2 ^ Z.of_nat attempt) + (1 # 2)
            <= backoff_delay rate_limited_world "All" attempt
            <= inject_Z (2 ^ Z.of_nat attempt) + (3 # 2).
Proof.
  assert (H : jitter_in_range rate_limited_world).
  { intros feed attempt. simpl. split; discriminate. }
  split; [exact H|].
  apply (fetch_feed_data_backoff rate_limited_world "All" empty_state H).
Defined.

(** The specification's scenario: 429 twice, then 200.  The fetch
    returns the items of the 200 answer after waits of 1.75 and 2.75
    seconds. *)
Example fetch_after_two_rate_limits :
  fetch_feed_data rate_limited_world "All" empty_state
  = (Ret (JArr [sample_item "a" 80 200]),
     mkState [] FileAbsent [] 0
       [EvRequest "All" 0; EvSleep 0 (backoff_delay rate_limited_world "All" 0);
        EvRequest "All" 1; EvSleep 1 (backoff_delay rate_limited_world "All" 1);
        EvRequest "All" 2])
  /\ backoff_delay rate_limited_world "All" 0 == 7 # 4
  /\ backoff_delay rate_limited_world "All" 1 == 11 # 4.
Proof. repeat split. Qed.

(** Three failed attempts give the empty list. *)
Example fetch_exhausted :
  fst (fetch_feed_data silent_world "All" empty_state) = Ret (JArr [])
  /\ trace (snd (fetch_feed_data silent_world "All" empty_state))
     = [EvRequest "All" 0; EvRequest "All" 1; EvRequest "All" 2].
Proof. split; reflexivity. Qed.

(** ** The pagination view *)

Lemma total_pages_init (deals : list Deal) (title : string) :
  DealsView.total_pages (DealsView.init deals title) = pages_needed deals.
Proof.
  unfold pages_needed, DealsView.init, MAX_DEALS_PER_PAGE. simpl.
  set (n := Z.of_nat (List.length deals)).
  unfold Qceiling, Qfloor, Qdiv, Qmult, Qinv, Qopp, inject_Z. simpl.
  rewrite Z.mul_1_r.
  Z.div_mod_to_equations. lia.
Qed.

Lemma click_keeps_total (v : DealsView.t) (c : DealsView.Click) :
  DealsView.total_pages (DealsView.click v c) = DealsView.total_pages v
  /\ DealsView.deals (DealsView.click v c) = DealsView.deals v.
Proof.
  destruct c; simpl; unfold DealsView.previous_button, DealsView.next_button.
  - destruct (DealsView.current_page v >? 0)%Z; split; reflexivity.
  - destruct (DealsView.current_page v <? DealsView.total_pages v - 1)%Z;
      split; reflexivity.
Qed.

Lemma click_keeps_range (v : DealsView.t) (c : DealsView.Click) :
  DealsView.page_in_range v -> DealsView.page_in_range (DealsView.click v c).
Proof.
  unfold DealsView.page_in_range.
  destruct c; simpl; unfold DealsView.previous_button, DealsView.next_button.
  - destruct (DealsView.current_page v >? 0)%Z eqn:E; simpl; [|tauto].
    apply Z.gtb_lt in E. lia.
  - destruct (DealsView.current_page v <? DealsView.total_pages v - 1)%Z eqn:E;
      simpl; [|tauto].
    apply Z.ltb_lt in E. lia.
Qed.

Lemma clicks_keep_range (cs : list DealsView.Click) :
  forall v, DealsView.page_in_range v ->
            DealsView.page_in_range (DealsView.clicks v cs).
Proof.
  induction cs as [|c rest IH]; intros v Hv; simpl; [exact Hv|].
  apply IH, click_keeps_range, Hv.
Qed.

Lemma clicks_keep_total (cs : list DealsView.Click) :
  forall v, DealsView.total_pages (DealsView.clicks v cs)
            = DealsView.total_pages v.
Proof.
  induction cs as [|c rest IH]; intro v; simpl; [reflexivity|].
  rewrite IH. apply click_keeps_total.
Qed.

Lemma init_in_range (deals : list Deal) (title : string) :
  deals <> [] -> DealsView.page_in_range (DealsView.init deals title).
Proof.
  intro Hne. unfold DealsView.page_in_range, DealsView.init,
    MAX_DEALS_PER_PAGE. simpl.
  assert (Hlen : (1 <= Z.of_nat (List.length deals))%Z).
  { destruct deals; [contradiction | simpl List.length; lia]. }
  Z.div_mod_to_equations. lia.
Qed.

(** C9, as amended.  The page count of a view is [ceil(len/10)]; for a
    view over a non-empty list the cursor stays within
    [0 .. total_pages - 1] from construction on, whatever buttons are
    pressed; and whatever the list, [next_button] at the last page and
    [previous_button] at page 0 leave the view as it is. *)
Theorem page_stays_in_range (deals : list Deal) (title : string)
  (cs : list DealsView.Click) :
  let v := DealsView.clicks (DealsView.init deals title) cs in
  DealsView.total_pages v = pages_needed deals
  /\ (deals <> [] -> DealsView.page_in_range v)
  /\ (DealsView.current_page v = (DealsView.total_pages v - 1)%Z ->
      DealsView.next_button v = v)
  /\ (DealsView.current_page v = 0%Z -> DealsView.previous_button v = v).
Proof.
  intro v. split; [|split; [|split]].
  - unfold v. rewrite clicks_keep_total. apply total_pages_init.
  - intro Hne. apply clicks_keep_range, init_in_range, Hne.
  - intro Hlast. unfold DealsView.next_button.
    rewrite Hlast, Z.ltb_irrefl. reflexivity.
  - intro Hfirst. unfold DealsView.previous_button. rewrite Hfirst.
    reflexivity.
Qed.

Lemma page_stays_in_range_witness :
  sample_deals <> []
  /\ DealsView.page_in_range sample_view
  /\ DealsView.next_button sample_view = sample_view
  /\ DealsView.previous_button sample_view = sample_view.
Proof.
  assert (Hne : sample_deals <> []) by discriminate.
  destruct (page_stays_in_range sample_deals "Top 4"
              [DealsView.Next; DealsView.Previous; DealsView.Previous])
    as (_ & Hrange & Hnext & Hprev).
  split; [exact Hne|]. split; [exact (Hrange Hne)|].
  split; [apply Hnext; reflexivity | apply Hprev; reflexivity].
Defined.

(** The views the commands build are over non-empty lists. *)
Lemma open_view_in_range (deals : list Deal) (title : string)
  (v : DealsView.t) (cs : list DealsView.Click) :
  open_view deals title = Some v ->
  DealsView.page_in_range (DealsView.clicks v cs).
Proof.
  unfold open_view. destruct deals as [|d rest]; [discriminate|].
  intro H. injection H as <-. apply clicks_keep_range, init_in_range.
  discriminate.
Qed.

(** C9, as stated, fails for the empty list: the view has 0 pages and
    its cursor is 0, above [total_pages - 1 = -1]. *)
Lemma empty_view_out_of_range :
  DealsView.total_pages (DealsView.init [] "Empty") = 0%Z
  /\ DealsView.current_page (DealsView.init [] "Empty") = 0%Z
  /\ ~ DealsView.page_in_range (DealsView.init [] "Empty").
Proof.
  split; [reflexivity|]. split; [reflexivity|].
  unfold DealsView.page_in_range. simpl. lia.
Qed.

(** The specification's example: 23 deals make 3 pages, and [Next] from
    the last page changes nothing. *)
Example twenty_three_deals :
  let v := DealsView.init (repeat (sample_deal "a" 80 200) 23) "Top 23" in
  DealsView.total_pages v = 3%Z
  /\ DealsView.current_page
       (DealsView.clicks v [DealsView.Next; DealsView.Next; DealsView.Next])
     = 2%Z.
Proof. split; reflexivity. Qed.

(** ** Calls interleaved on the event loop *)

Lemma settle_snd (m : M Task) (st : State) : snd (settle m st) = snd (m st).
Proof. unfold settle. destruct (m st) as [[t | e] st']; reflexivity. Qed.

Lemma run_alone_finished (fuel : nat) (r : Outcome (list Deal)) (st : State) :
  run_alone fuel (Finished r) st = (Finished r, st).
Proof. induction fuel as [|fuel IH]; simpl; [reflexivity | exact IH]. Qed.

(** Woken without another call in between, a call goes through the
    feeds as the loop of [refresh_cycle] does. *)
Lemma run_alone_feeds (w : World) (feeds : list string) :
  forall (acc : list Deal) (st : State),
  run_alone (2 * List.length feeds)
    (fst (settle (next_feed w feeds acc) st))
    (snd (settle (next_feed w feeds acc) st))
  = finish ((deals <- for_each (process_feed w) feeds acc ;; publish w deals)
              st).
Proof.
  induction feeds as [|feed rest IH]; intros acc st.
  - reflexivity.
  - replace (2 * List.length (feed :: rest))%nat
      with (S (S (2 * List.length rest))) by (simpl; lia).
    simpl next_feed. unfold settle at 1 2, ret at 1 2. simpl fst. simpl snd.
    simpl for_each. cbn [run_alone resume].
    unfold settle at 1. unfold bind.
    destruct (process_feed w feed acc st) as [[acc' | e] st1].
    + unfold ret at 1. cbn [resume].
      pose proof (IH acc' st1) as H. unfold bind in H. rewrite <- H.
      destruct (settle (next_feed w rest acc') st1) as [t st2]. reflexivity.
    + cbn [resume]. apply run_alone_finished.
Qed.

(** So a call that is alone on the event loop ends, after at most two
    wake-ups per feed, with the result and the state of
    [fetch_and_filter_deals_internal]. *)
Lemma run_alone_agrees (w : World) (force_refresh : bool) (st : State) :
  run_alone (2 * List.length FEED_NAMES)
    (fst (start_task w force_refresh st))
    (snd (start_task w force_refresh st))
  = finish (fetch_and_filter_deals_internal w force_refresh st).
Proof.
  unfold start_task, fetch_and_filter_deals_internal.
  destruct (cache_is_fresh w force_refresh st).
  - apply run_alone_finished.
  - unfold refresh_cycle.
    change (bind load_historical_lows
              (fun _ => deals <- for_each (process_feed w) FEED_NAMES [] ;;
                        publish w deals) st)
      with ((deals <- for_each (process_feed w) FEED_NAMES [] ;;
             publish w deals) (snd (load_historical_lows st))).
    rewrite <- run_alone_feeds. reflexivity.
Qed.

Lemma process_feed_requests (w : World) (feed : string) (acc : list Deal) :
  first_event (EvRequest feed 0) (process_feed w feed acc).
Proof.
  intro st.
  destruct (feeds_loop_requests w feed [] acc st) as [evs H].
  exists evs. rewrite <- H. simpl. unfold bind.
  destruct (process_feed w feed acc st) as [[acc' | e] st1]; reflexivity.
Qed.

Lemma cycles_in_flight_app (st st' : State) (ts : list Task) (t : Task) :
  cycles_in_flight (mkLoop st' (ts ++ [t]))
  = (cycles_in_flight (mkLoop st ts) + (if in_flight t then 1 else 0))%nat.
Proof.
  unfold cycles_in_flight. simpl. rewrite filter_app, length_app. simpl.
  destruct (in_flight t); reflexivity.
Qed.

(** C6, as amended.  The code has no single-flight mechanism.  A
    trigger that is forced, or that reads the clock 300 seconds or more
    after the published timestamp, starts a cycle of its own whatever
    calls the event loop already holds: the number of cycles in flight
    grows by one, and the new call, once woken, sends its own request
    to the first feed. *)
Theorem trigger_starts_own_cycle (l : Loop) (w : World) (force_refresh : bool) :
  force_refresh = true
  \/ 300 <= clock_start w - last_fetch_time (shared l) ->
  tasks (loop_step l (Trigger w force_refresh))
  = tasks l ++ [AwaitFetch w "All" (tl FEED_NAMES) []]
  /\ cycles_in_flight (loop_step l (Trigger w force_refresh))
     = S (cycles_in_flight l)
  /\ forall st, exists evs,
       trace (snd (resume (AwaitFetch w "All" (tl FEED_NAMES) []) st))
       = trace st ++ EvRequest "All" 0 :: evs.
Proof.
  intro Hstale.
  assert (Hfresh : cache_is_fresh w force_refresh (shared l) = false).
  { unfold cache_is_fresh, MAX_CACHE_AGE_SECONDS.
    destruct Hstale as [-> | Hage]; [reflexivity|].
    apply Qltb_false_iff in Hage. rewrite Hage. apply andb_false_r. }
  assert (Hstep : loop_step l (Trigger w force_refresh)
                  = mkLoop (snd (load_historical_lows (shared l)))
                      (tasks l ++ [AwaitFetch w "All" (tl FEED_NAMES) []])).
  { unfold loop_step, start_task. rewrite Hfresh. reflexivity. }
  rewrite Hstep. split; [reflexivity|]. split.
  - rewrite (cycles_in_flight_app (shared l)). simpl.
    destruct l as [st ts]. simpl. lia.
  - intro st. cbn [resume]. rewrite settle_snd.
    apply first_event_bind; [apply process_feed_requests|].
    intros acc' st1. exists []. simpl. symmetry. apply app_nil_r.
Qed.

Lemma trigger_starts_own_cycle_witness :
  (true = true
   \/ 300 <= clock_start silent_world - last_fetch_time (shared two_triggers))
  /\ tasks (loop_step two_triggers (Trigger silent_world true))
     = tasks two_triggers
       ++ [AwaitFetch silent_world "All" (tl FEED_NAMES) []]
  /\ cycles_in_flight (loop_step two_triggers (Trigger silent_world true))
     = S (cycles_in_flight two_triggers)
  /\ forall st, exists evs,
       trace (snd (resume (AwaitFetch silent_world "All" (tl FEED_NAMES) [])
                     st))
       = trace st ++ EvRequest "All" 0 :: evs.
Proof.
  assert (H : true = true
              \/ 300 <= clock_start silent_world
                        - last_fetch_time (shared two_triggers))
    by (left; reflexivity).
  split; [exact H|].
  apply (trigger_starts_own_cycle two_triggers silent_world true H).
Defined.

(** C6, as stated, fails: the second of two forced triggers does not
    wait for the cycle of the first.  Both cycles are in flight at
    once, and when both are woken each has sent its own three requests
    to the feed "All". *)
Lemma two_cycles_in_flight :
  cycles_in_flight (run_loop idle_loop [Trigger silent_world true]) = 1%nat
  /\ cycles_in_flight two_triggers = 2%nat
  /\ cycles_in_flight (run_loop two_triggers [Wake 0; Wake 1]) = 2%nat
  /\ filter (is_request "All")
       (trace (shared (run_loop two_triggers [Wake 0; Wake 1])))
     = [EvRequest "All" 0; EvRequest "All" 1; EvRequest "All" 2;
        EvRequest "All" 0; EvRequest "All" 1; EvRequest "All" 2].
Proof. repeat split. Qed.


(** * Further properties of the code *)

(** ** Rounding *)





(** ** More on the normalizer *)

Lemma passes_not_sold_out (d : Deal) :
  passes_strict_rules d = true -> truthy (is_sold_out d) = false.
Proof.
  unfold passes_strict_rules. destruct (sale_price d); [|discriminate].
  destruct (truthy (is_sold_out d)); [discriminate | reflexivity].
Qed.

Lemma passes_thresholds (d : Deal) (price : Q) :
  passes_strict_rules d = true -> sale_price d = Some price ->
  75 <= price /\ 40 <= savings_amount d /\ 50 <= discount_percent d.
Proof.
  unfold passes_strict_rules, MIN_SALE_PRICE, MIN_DOLLAR_SAVINGS,
    MIN_PERCENT_OFF_LOW_TIER.
  intros Hp Hs. rewrite Hs in Hp.
  destruct (truthy (is_sold_out d)); [discriminate|].
  destruct (Qltb price 75) eqn:H1; [discriminate|].
  destruct (Qltb (savings_amount d) 40) eqn:H2; [discriminate|].
  destruct (Qltb (discount_percent d) 50) eqn:H3; [discriminate|].
  apply Qltb_false_iff in H1, H2, H3. repeat split; assumption.
Qed.

(** An item that carries no [IsSoldOut] key is taken as sold out: the
    deal made from it never passes the filter, whatever its prices. *)
Theorem missing_sold_out_flag_fails (raw : list (string * json))
  (feed : string) :
  obj_get "IsSoldOut" raw = None ->
  exists d,
    process_deal_data (JObj raw) feed = inr d
    /\ is_sold_out d = JBool true
    /\ passes_strict_rules d = false.
Proof.
  intro Hmiss.
  assert (Hflag : obj_get_default "IsSoldOut" (JBool true) raw = JBool true).
  { unfold obj_get_default. rewrite Hmiss. reflexivity. }
  destruct (process_deal_data_cases raw feed)
    as [Hd | (s & l & _ & _ & _ & _ & Hd)]; rewrite Hd; eexists;
    (split; [reflexivity|]); simpl; rewrite Hflag.
  - split; reflexivity.
  - split; [reflexivity|]. unfold passes_strict_rules. simpl.
    rewrite Hflag. reflexivity.
Qed.

Lemma missing_sold_out_flag_fails_witness :
  obj_get "IsSoldOut" [("OfferId", JStr "x");
                       ("SalePrice", JObj [("Minimum", JNum 80)]);
                       ("ListPrice", JObj [("Minimum", JNum 200)])] = None
  /\ exists d,
       process_deal_data
         (JObj [("OfferId", JStr "x");
                ("SalePrice", JObj [("Minimum", JNum 80)]);
                ("ListPrice", JObj [("Minimum", JNum 200)])]) "All" = inr d
       /\ is_sold_out d = JBool true
       /\ passes_strict_rules d = false.
Proof.
  split; [reflexivity|].
  apply (missing_sold_out_flag_fails
           [("OfferId", JStr "x"); ("SalePrice", JObj [("Minimum", JNum 80)]);
            ("ListPrice", JObj [("Minimum", JNum 200)])] "All").
  reflexivity.
Defined.



(** ** Saving and reloading the historical lows *)





(** ** A second pass of the tracker *)

Lemma minimum_seen_below (prices : list Q) :
  forall stored p, In p prices ->
  exists m, minimum_seen stored prices = Some m /\ m <= p.
Proof.
  induction prices as [|q rest IH]; intros stored p Hin; [contradiction|].
  simpl. destruct Hin as [-> | Hin].
  - destruct stored as [low|]; simpl.
    + destruct (minimum_seen_le rest (Qmin low p)) as (m & Hm & Hle).
      exists m. split; [exact Hm|].
      eapply Qle_trans; [exact Hle | apply Q.le_min_r].
    + destruct (minimum_seen_le rest p) as (m & Hm & Hle).
      exists m. split; assumption.
  - apply IH, Hin.
Qed.

Lemma qualifying_prices_In (k : json) (deals : list Deal) (d : Deal)
  (p : Q) :
  In d deals -> passes_strict_rules d = true -> sale_price d = Some p ->
  key_eqb (offer_id d) k = true ->
  In p (qualifying_prices k deals).
Proof.
  intros Hin Hp Hs Hk. induction deals as [|x rest IH]; [contradiction|].
  rewrite qualifying_prices_cons. apply in_or_app.
  destruct Hin as [-> | Hin].
  - left. simpl. rewrite Hs, Hp, Hk. simpl. left. reflexivity.
  - right. apply IH, Hin.
Qed.

(** Deals whose prices are not below the lows already stored are all
    labelled [GREAT_DEAL] and leave the state alone. *)
Lemma track_deals_settled (w : World) (deals : list Deal) :
  forall (acc : list Deal) (st : State),
  Forall (fun d => hashable (offer_id d) = true) deals ->
  (forall d p, In d deals -> passes_strict_rules d = true ->
               sale_price d = Some p ->
               exists m, dict_get (offer_id d) (historical_lows_cache st)
                         = Some m /\ m <= p) ->
  for_each (track_deal w) deals acc st
  = (Ret (acc ++ all_great_deals deals), st).
Proof.
  induction deals as [|d rest IH]; intros acc st Hall Hlow.
  - simpl. unfold all_great_deals. simpl. rewrite app_nil_r. reflexivity.
  - inversion Hall as [|? ? Hd Hrest]; subst.
    simpl. unfold bind.
    assert (Hstep : track_deal w d acc st
                    = (Ret (acc ++ all_great_deals [d]), st)).
    { destruct (track_deal_cases w d acc st Hd)
        as [[Hp Hrun] | (p & Hp & Hs & [[Hb Hrun] | [Hb Hrun]])].
      - rewrite Hrun. unfold all_great_deals. simpl. rewrite Hp. simpl.
        rewrite app_nil_r. reflexivity.
      - rewrite Hrun. unfold all_great_deals. simpl. rewrite Hp. reflexivity.
      - exfalso. destruct (Hlow d p (or_introl eq_refl) Hp Hs)
          as (m & Hm & Hle).
        simpl in Hb. rewrite Hm in Hb. simpl in Hb.
        apply Qltb_true_iff in Hb. apply (Qlt_not_le _ _ Hb Hle). }
    rewrite Hstep. rewrite IH.
    + unfold all_great_deals. simpl.
      destruct (passes_strict_rules d); simpl; rewrite <- app_assoc;
        reflexivity.
    + exact Hrest.
    + intros d' p Hin. apply Hlow. right. exact Hin.
Qed.

(** Running the tracker a second time over deals it has just
    processed saves nothing: the state is left as the first pass left
    it and every filter-passing deal is labelled [GREAT_DEAL]. *)
Theorem second_pass_all_great_deals (w w2 : World) (deals acc acc1 acc2 : list Deal)
  (st st1 : State) :
  Forall (fun d => hashable (offer_id d) = true) deals ->
  for_each (track_deal w) deals acc st = (Ret acc1, st1) ->
  for_each (track_deal w2) deals acc2 st1
  = (Ret (acc2 ++ all_great_deals deals), st1).
Proof.
  intros Hall Hrun. apply track_deals_settled; [exact Hall|].
  intros d p Hin Hp Hs.
  assert (Hd : hashable (offer_id d) = true).
  { rewrite Forall_forall in Hall. apply Hall, Hin. }
  destruct (track_deals_low w (offer_id d) deals acc st Hall)
    as (acc' & st' & Hrun' & Hlow & _).
  rewrite Hrun in Hrun'. injection Hrun' as <- <-.
  pose proof (qualifying_prices_In (offer_id d) deals d p Hin Hp Hs
                (key_eqb_refl _ Hd)) as Hq.
  destruct (minimum_seen_below _
              (dict_get (offer_id d) (historical_lows_cache st)) p Hq)
    as (m & Hm & Hle).
  rewrite Hm in Hlow.
  destruct (dict_get (offer_id d) (historical_lows_cache st1)) as [m'|];
    [|contradiction].
  exists m'. split; [reflexivity|]. simpl in Hlow. rewrite Hlow. exact Hle.
Qed.

Lemma second_pass_all_great_deals_witness :
  (Forall (fun d => hashable (offer_id d) = true) sample_deals
   /\ for_each (track_deal silent_world) sample_deals [] empty_state
      = (Ret tracked_deals, tracked_state))
  /\ for_each (track_deal silent_world) sample_deals [] tracked_state
     = (Ret ([] ++ all_great_deals sample_deals), tracked_state).
Proof.
  assert (H1 : Forall (fun d => hashable (offer_id d) = true) sample_deals)
    by (repeat constructor).
  assert (H2 : for_each (track_deal silent_world) sample_deals [] empty_state
               = (Ret tracked_deals, tracked_state))
    by (vm_compute; reflexivity).
  split; [split; assumption|].
  apply (second_pass_all_great_deals silent_world silent_world sample_deals
           [] tracked_deals [] empty_state tracked_state H1 H2).
Defined.

(** ** What a fetch returns *)

Lemma add_events_add (evs1 evs2 : list Event) (st : State) :
  add_events evs2 (add_events evs1 st) = add_events (evs1 ++ evs2) st.
Proof. unfold add_events. simpl. rewrite app_assoc. reflexivity. Qed.

Lemma add_events_nil (st : State) : add_events [] st = st.
Proof. destruct st. unfold add_events. simpl. rewrite app_nil_r. reflexivity. Qed.

(** One attempt that is answered by something the fetcher retries. *)
Lemma fetch_attempts_retry (w : World) (feed : string) (attempt : nat)
  (rest : list nat) (st : State) :
  retryable (http w feed attempt) = true ->
  fetch_attempts w feed (attempt :: rest) st
  = fetch_attempts w feed rest
      (add_events (attempt_events w feed attempt) st).
Proof.
  intro Hr. simpl fetch_attempts. unfold bind at 1. unfold emit at 1.
  cbv beta iota. unfold attempt_events.
  change (mkState (historical_lows_cache st) (persistence_file st)
            (all_qualified_deals st) (last_fetch_time st)
            (trace st ++ [EvRequest feed attempt]))
    with (add_events [EvRequest feed attempt] st).
  destruct (http w feed attempt) as [status_code body| |]; simpl in Hr |- *.
  - destruct (status_code =? 200)%Z; [discriminate|]. simpl in Hr.
    destruct (status_code =? 429)%Z.
    + unfold bind, emit. simpl. unfold add_events. rewrite <- app_assoc.
      reflexivity.
    + simpl in Hr. destruct (is_error_status status_code); [discriminate|].
      reflexivity.
  - reflexivity.
  - discriminate.
Qed.

Lemma fetch_attempts_skip (w : World) (feed : string) (made : list nat) :
  forall (rest : list nat) (st : State),
  Forall (fun i => retryable (http w feed i) = true) made ->
  fetch_attempts w feed (made ++ rest) st
  = fetch_attempts w feed rest
      (add_events (flat_map (attempt_events w feed) made) st).
Proof.
  induction made as [|attempt made IH]; intros rest st Hall.
  - simpl. rewrite add_events_nil. reflexivity.
  - inversion Hall as [|? ? Ha Hmade]; subst.
    change ((attempt :: made) ++ rest) with (attempt :: (made ++ rest)).
    rewrite (fetch_attempts_retry w feed attempt _ st Ha).
    rewrite (IH rest _ Hmade). rewrite add_events_add. reflexivity.
Qed.

Lemma retryable_not_limited_events (w : World) (feed : string) (attempt : nat) :
  is_rate_limited (http w feed attempt) = false ->
  attempt_events w feed attempt = [EvRequest feed attempt].
Proof. intro H. unfold attempt_events. rewrite H. reflexivity. Qed.

Lemma seq_split_at (n : nat) :
  (n < 3)%nat -> seq 0 3 = seq 0 n ++ n :: seq (S n) (2 - n).
Proof.
  intro Hn. destruct n as [|[|[|n]]]; try reflexivity. lia.
Qed.

Lemma prefix_retryable (w : World) (feed : string) (n : nat) :
  (forall i, (i < n)%nat -> retryable (http w feed i) = true) ->
  Forall (fun i => retryable (http w feed i) = true) (seq 0 n).
Proof.
  intro H. apply Forall_forall. intros i Hi. apply in_seq in Hi.
  apply H. lia.
Qed.

Lemma flat_map_seq_snoc (w : World) (feed : string) (n : nat) :
  flat_map (attempt_events w feed) (seq 0 (S n))
  = flat_map (attempt_events w feed) (seq 0 n) ++ attempt_events w feed n.
Proof.
  rewrite seq_S. simpl. rewrite flat_map_app. simpl. rewrite app_nil_r.
  reflexivity.
Qed.

(** The fetch returns the items of the first 200 answer: when attempt
    [n] is answered 200 with an object and the attempts before it were
    timeouts, 429s or other statuses that are no errors, the result is
    that object's [Items] (the empty list when the key is missing),
    after [n + 1] requests and no request after it. *)
Theorem fetch_returns_first_ok (w : World) (feed : string) (st : State)
  (n : nat) (kvs : list (string * json)) :
  (n < 3)%nat ->
  (forall i, (i < n)%nat -> retryable (http w feed i) = true) ->
  http w feed n = Response 200 (JObj kvs) ->
  fetch_feed_data w feed st
  = (Ret (obj_get_default "Items" (JArr []) kvs),
     add_events (flat_map (attempt_events w feed) (seq 0 (S n))) st).
Proof.
  intros Hn Hbefore Hok. unfold fetch_feed_data.
  rewrite (seq_split_at n Hn).
  rewrite (fetch_attempts_skip w feed (seq 0 n) _ st
             (prefix_retryable w feed n Hbefore)).
  rewrite flat_map_seq_snoc, <- add_events_add.
  rewrite (retryable_not_limited_events w feed n)
    by (rewrite Hok; reflexivity).
  simpl fetch_attempts. unfold bind, emit. rewrite Hok. reflexivity.
Qed.

Lemma fetch_returns_first_ok_witness :
  ((2 < 3)%nat
   /\ (forall i, (i < 2)%nat ->
                 retryable (http rate_limited_world "All" i) = true)
   /\ http rate_limited_world "All" 2
      = Response 200 (JObj [("Items", JArr [sample_item "a" 80 200])]))
  /\ fetch_feed_data rate_limited_world "All" empty_state
     = (Ret (obj_get_default "Items" (JArr [])
               [("Items", JArr [sample_item "a" 80 200])]),
        add_events
          (flat_map (attempt_events rate_limited_world "All") (seq 0 3))
          empty_state).
Proof.
  assert (H1 : (2 < 3)%nat) by lia.
  assert (H2 : forall i, (i < 2)%nat ->
                         retryable (http rate_limited_world "All" i) = true).
  { intros i Hi. destruct i as [|[|i]]; [reflexivity | reflexivity | lia]. }
  assert (H3 : http rate_limited_world "All" 2
               = Response 200 (JObj [("Items", JArr [sample_item "a" 80 200])]))
    by reflexivity.
  split; [repeat split; assumption|].
  apply (fetch_returns_first_ok rate_limited_world "All" empty_state 2 _
           H1 H2 H3).
Defined.

(** Three attempts that are all timeouts, 429s or non-error statuses
    other than 200 exhaust the fetch: it returns the empty list after
    exactly the three attempts. *)
Theorem fetch_exhausts_after_three (w : World) (feed : string) (st : State) :
  (forall i, (i < 3)%nat -> retryable (http w feed i) = true) ->
  fetch_feed_data w feed st
  = (Ret (JArr []),
     add_events (flat_map (attempt_events w feed) (seq 0 3)) st).
Proof.
  intro Hall. unfold fetch_feed_data.
  rewrite <- (app_nil_r (seq 0 3)) at 1.
  rewrite (fetch_attempts_skip w feed (seq 0 3) [] st
             (prefix_retryable w feed 3 Hall)).
  reflexivity.
Qed.

Lemma fetch_exhausts_after_three_witness :
  (forall i, (i < 3)%nat -> retryable (http silent_world "All" i) = true)
  /\ fetch_feed_data silent_world "All" empty_state
     = (Ret (JArr []),
        add_events (flat_map (attempt_events silent_world "All") (seq 0 3))
          empty_state).
Proof.
  assert (H : forall i, (i < 3)%nat ->
                        retryable (http silent_world "All" i) = true)
    by (intros; reflexivity).
  split; [exact H|].
  apply (fetch_exhausts_after_three silent_world "All" empty_state H).
Defined.

(** A transport error, or a 4xx/5xx status other than 429, ends the
    fetch at once: the empty list is returned and no further attempt
    is made, however many were left. *)
Theorem fetch_gives_up_without_retry (w : World) (feed : string) (st : State)
  (n : nat) :
  (n < 3)%nat ->
  (forall i, (i < n)%nat -> retryable (http w feed i) = true) ->
  gives_up (http w feed n) = true ->
  fetch_feed_data w feed st
  = (Ret (JArr []),
     add_events (flat_map (attempt_events w feed) (seq 0 n)
                 ++ [EvRequest feed n]) st).
Proof.
  intros Hn Hbefore Hup. unfold fetch_feed_data.
  rewrite (seq_split_at n Hn).
  rewrite (fetch_attempts_skip w feed (seq 0 n) _ st
             (prefix_retryable w feed n Hbefore)).
  rewrite <- add_events_add.
  simpl fetch_attempts. unfold bind, emit.
  destruct (http w feed n) as [status_code body| |]; simpl in Hup.
  - destruct (status_code =? 200)%Z; [discriminate|].
    destruct (status_code =? 429)%Z; [discriminate|].
    simpl in Hup. rewrite Hup. reflexivity.
  - discriminate.
  - reflexivity.
Qed.

Lemma fetch_gives_up_without_retry_witness :
  ((1 < 3)%nat
   /\ (forall i, (i < 1)%nat ->
                 retryable (http server_error_world "All" i) = true)
   /\ gives_up (http server_error_world "All" 1) = true)
  /\ fetch_feed_data server_error_world "All" empty_state
     = (Ret (JArr []),
        add_events
          (flat_map (attempt_events server_error_world "All") (seq 0 1)
           ++ [EvRequest "All" 1]) empty_state).
Proof.
  assert (H1 : (1 < 3)%nat) by lia.
  assert (H2 : forall i, (i < 1)%nat ->
                         retryable (http server_error_world "All" i) = true).
  { intros i Hi. destruct i; [reflexivity | lia]. }
  assert (H3 : gives_up (http server_error_world "All" 1) = true)
    by reflexivity.
  split; [repeat split; assumption|].
  apply (fetch_gives_up_without_retry server_error_world "All" empty_state 1
           H1 H2 H3).
Defined.

Lemma fetch_attempts_raise (w : World) (feed : string) (attempts : list nat) :
  forall (st : State) (e : PyExn) (st' : State),
  fetch_attempts w feed attempts st = (Raise e, st') ->
  e = AttributeError
  /\ exists made attempt rest body,
       attempts = made ++ attempt :: rest
       /\ Forall (fun i => retryable (http w feed i) = true) made
       /\ http w feed attempt = Response 200 body
       /\ is_object body = false.
Proof.
  induction attempts as [|attempt rest IH]; intros st e st' Hrun.
  - discriminate.
  - destruct (retryable (http w feed attempt)) eqn:Hr.
    + rewrite (fetch_attempts_retry w feed attempt rest st Hr) in Hrun.
      destruct (IH _ _ _ Hrun) as (He & made & a & rest' & body & Hsplit
                                   & Hmade & Hok & Hbody).
      split; [exact He|].
      exists (attempt :: made), a, rest', body.
      split; [rewrite Hsplit; reflexivity|].
      split; [constructor; assumption|]. split; assumption.
    + simpl fetch_attempts in Hrun. unfold bind, emit in Hrun.
      destruct (http w feed attempt) as [status_code body| |] eqn:Hhttp;
        [| discriminate | discriminate].
      simpl in Hr.
      destruct (status_code =? 200)%Z eqn:H200.
      * apply Z.eqb_eq in H200. subst status_code.
        destruct body; try discriminate; injection Hrun as <- _;
          (split; [reflexivity|]);
          exists [], attempt, rest; eexists;
          (split; [reflexivity|]); (split; [constructor|]);
          (split; [exact Hhttp | reflexivity]).
      * simpl in Hr. destruct (status_code =? 429)%Z; [discriminate|].
        simpl in Hr. destruct (is_error_status status_code);
          [discriminate | discriminate].
Qed.

(** The one way a fetch raises: an attempt is answered 200 with a body
    that is not an object, after attempts that were all retried.  The
    exception is an [AttributeError]; timeouts, transport errors and
    error statuses never leave the function. *)
Theorem fetch_raises_only_on_bad_body (w : World) (feed : string)
  (st : State) (e : PyExn) (st' : State) :
  fetch_feed_data w feed st = (Raise e, st') ->
  e = AttributeError
  /\ exists n body,
       (n < 3)%nat
       /\ (forall i, (i < n)%nat -> retryable (http w feed i) = true)
       /\ http w feed n = Response 200 body
       /\ is_object body = false.
Proof.
  unfold fetch_feed_data. intro Hrun.
  destruct (fetch_attempts_raise w feed (seq 0 3) st e st' Hrun)
    as (He & made & a & rest & body & Hsplit & Hmade & Hok & Hbody).
  split; [exact He|].
  assert (Hshape : made = seq 0 a /\ (a < 3)%nat).
  { simpl in Hsplit.
    destruct made as [|a0 [|a1 [|a2 [|a3 made]]]]; simpl in Hsplit;
      inversion Hsplit; subst; split; try reflexivity; try lia. }
  destruct Hshape as [-> Ha].
  exists a, body. split; [exact Ha|]. split; [|split; assumption].
  intros i Hi. rewrite Forall_forall in Hmade. apply Hmade, in_seq. lia.
Qed.

Lemma fetch_raises_only_on_bad_body_witness :
  fetch_feed_data bad_body_world "All" empty_state
  = (Raise AttributeError, add_events [EvRequest "All" 0] empty_state)
  /\ AttributeError = AttributeError
  /\ exists n body,
       (n < 3)%nat
       /\ (forall i, (i < n)%nat ->
                     retryable (http bad_body_world "All" i) = true)
       /\ http bad_body_world "All" n = Response 200 body
       /\ is_object body = false.
Proof.
  assert (H : fetch_feed_data bad_body_world "All" empty_state
              = (Raise AttributeError,
                 add_events [EvRequest "All" 0] empty_state))
    by reflexivity.
  split; [exact H|].
  apply (fetch_raises_only_on_bad_body bad_body_world "All" empty_state
           AttributeError _ H).
Defined.

Lemma sleep_total_app (evs1 evs2 : list Event) :
  sleep_total (evs1 ++ evs2) == sleep_total evs1 + sleep_total evs2.
Proof.
  induction evs1 as [|e rest IH]; simpl; [ring|].
  destruct e; try exact IH. rewrite IH. ring.
Qed.

Lemma attempt_sleep_bound (w : World) (feed : string) (attempt : nat) :
  jitter_in_range w ->
  0 <= sleep_total (attempt_events w feed attempt)
  /\ sleep_total (attempt_events w feed attempt)
     <= inject_Z (2 ^ Z.of_nat attempt) + 1.
Proof.
  intro Hj. destruct (Hj feed attempt) as [Hlo Hhi].
  assert (Hpow : 0 <= inject_Z (2 ^ Z.of_nat attempt)).
  { change 0 with (inject_Z 0). rewrite <- Zle_Qle.
    apply Z.pow_nonneg. lia. }
  unfold attempt_events. destruct (is_rate_limited (http w feed attempt));
    simpl; unfold backoff_delay; split; lra.
Qed.

(** A fetch sleeps at most 10 seconds in all: the waits after 429
    answers add up to no more than (1 + 2 + 4) seconds of backoff and
    3 seconds of jitter, and it makes at most three requests. *)
Theorem fetch_sleeps_at_most_ten_seconds (w : World) (feed : string)
  (st : State) :
  jitter_in_range w ->
  exists evs,
    trace (snd (fetch_feed_data w feed st)) = trace st ++ evs
    /\ 0 <= sleep_total evs <= 10
    /\ (request_count evs <= 3)%nat.
Proof.
  intro Hj. unfold fetch_feed_data.
  destruct (fetch_attempts_trace w feed (seq 0 3) st)
    as (made & left & Hsplit & Htr).
  exists (flat_map (attempt_events w feed) made). split; [exact Htr|].
  pose proof (attempt_sleep_bound w feed 0 Hj) as [L0 U0].
  pose proof (attempt_sleep_bound w feed 1 Hj) as [L1 U1].
  pose proof (attempt_sleep_bound w feed 2 Hj) as [L2 U2].
  change (inject_Z (2 ^ Z.of_nat 0)) with 1 in U0.
  change (inject_Z (2 ^ Z.of_nat 1)) with 2 in U1.
  change (inject_Z (2 ^ Z.of_nat 2)) with 4 in U2.
  unfold request_count. rewrite attempt_events_requests.
  simpl in Hsplit.
  destruct made as [|a0 [|a1 [|a2 [|a3 made]]]]; simpl in Hsplit;
    inversion Hsplit; subst; cbn [flat_map]; rewrite ?app_nil_r;
    rewrite ?sleep_total_app; cbn [sleep_total List.length];
    repeat split; try lra; try lia.
Qed.

Lemma fetch_sleeps_at_most_ten_seconds_witness :
  jitter_in_range rate_limited_world
  /\ exists evs,
       trace (snd (fetch_feed_data rate_limited_world "All" empty_state))
       = trace empty_state ++ evs
       /\ 0 <= sleep_total evs <= 10
       /\ (request_count evs <= 3)%nat.
Proof.
  assert (H : jitter_in_range rate_limited_world).
  { intros feed attempt. simpl. split; discriminate. }
  split; [exact H|].
  apply (fetch_sleeps_at_most_ten_seconds rate_limited_world "All"
           empty_state H).
Defined.

(** ** Requests and saves of a cycle *)

Lemma request_count_app (evs1 evs2 : list Event) :
  request_count (evs1 ++ evs2)
  = (request_count evs1 + request_count evs2)%nat.
Proof. unfold request_count. rewrite filter_app, length_app. reflexivity. Qed.

Lemma within_nil (n : nat) : within n [].
Proof. split; [unfold request_count; simpl; lia | constructor]. Qed.

Lemma within_app (n1 n2 : nat) (evs1 evs2 : list Event) :
  within n1 evs1 -> within n2 evs2 -> within (n1 + n2) (evs1 ++ evs2).
Proof.
  intros [H1 F1] [H2 F2]. split.
  - rewrite request_count_app. lia.
  - apply Forall_app. split; assumption.
Qed.

Lemma within_more (n1 n2 : nat) (evs : list Event) :
  (n1 <= n2)%nat -> within n1 evs -> within n2 evs.
Proof. intros Hle [H F]. split; [lia | exact F]. Qed.

Lemma appends_ret {A : Type} (n : nat) (a : A) : appends (within n) (ret a).
Proof.
  intro st. exists []. split; [simpl; symmetry; apply app_nil_r|].
  apply within_nil.
Qed.

Lemma appends_raise {A : Type} (n : nat) (e : PyExn) :
  appends (within n) (@raise A e).
Proof.
  intro st. exists []. split; [simpl; symmetry; apply app_nil_r|].
  apply within_nil.
Qed.

Lemma appends_bind {A B : Type} (n1 n2 : nat) (m : M A) (k : A -> M B) :
  appends (within n1) m -> (forall a, appends (within n2) (k a)) ->
  appends (within (n1 + n2)) (bind m k).
Proof.
  intros Hm Hk st. unfold bind. destruct (Hm st) as (evs1 & H1 & W1).
  destruct (m st) as [[a | e] st1]; simpl in H1.
  - destruct (Hk a st1) as (evs2 & H2 & W2). exists (evs1 ++ evs2).
    split; [rewrite H2, H1; symmetry; apply app_assoc|].
    apply within_app; assumption.
  - exists evs1. split; [exact H1|].
    apply (within_more n1); [lia | exact W1].
Qed.

Lemma appends_more {A : Type} (n1 n2 : nat) (m : M A) :
  (n1 <= n2)%nat -> appends (within n1) m -> appends (within n2) m.
Proof.
  intros Hle Hm st. destruct (Hm st) as (evs & H & W). exists evs.
  split; [exact H | apply (within_more n1); assumption].
Qed.

Lemma appends_for_each {A B : Type} (c : nat) (body : A -> B -> M B)
  (xs : list A) :
  (forall x acc, appends (within c) (body x acc)) ->
  forall acc, appends (within (c * List.length xs)) (for_each body xs acc).
Proof.
  intro Hbody. induction xs as [|x rest IH]; intro acc; simpl.
  - apply appends_ret.
  - apply (appends_more (c + c * List.length rest)); [lia|].
    apply appends_bind; [apply Hbody | exact IH].
Qed.

Lemma appends_track_deal (w : World) (d : Deal) (acc : list Deal) :
  appends (within 0) (track_deal w d acc).
Proof.
  intro st. destruct (hashable (offer_id d)) eqn:Hh.
  - destruct (track_deal_cases w d acc st Hh)
      as [[_ Hrun] | (price & Hp & Hs & [[_ Hrun] | [_ Hrun]])];
      rewrite Hrun; simpl.
    + exists []. split; [symmetry; apply app_nil_r | apply within_nil].
    + exists []. split; [symmetry; apply app_nil_r | apply within_nil].
    + exists [EvSave (offer_id d) price]. split; [reflexivity|].
      split; [unfold request_count; simpl; lia|]. constructor; [|constructor].
      simpl. split; [exact Hh|].
      apply (passes_thresholds d price Hp Hs).
  - exists []. split; [|apply within_nil]. unfold track_deal.
    destruct (passes_strict_rules d); [|simpl; symmetry; apply app_nil_r].
    destruct (sale_price d); [|simpl; symmetry; apply app_nil_r].
    unfold bind, cache_get. rewrite Hh. simpl. symmetry. apply app_nil_r.
Qed.

Lemma appends_process_item (w : World) (feed : string) (raw : json)
  (acc : list Deal) :
  appends (within 0) (process_item w feed raw acc).
Proof.
  unfold process_item. destruct (process_deal_data raw feed).
  - apply appends_raise.
  - apply appends_track_deal.
Qed.

Lemma attempt_events_no_save (w : World) (feed : string) (made : list nat) :
  Forall qualifying_save (flat_map (attempt_events w feed) made).
Proof.
  induction made as [|a rest IH]; simpl; [constructor|].
  constructor; [exact I|]. apply Forall_app. split; [|exact IH].
  destruct (is_rate_limited (http w feed a)); repeat constructor.
Qed.

Lemma appends_fetch_feed_data (w : World) (feed : string) :
  appends (within 3) (fetch_feed_data w feed).
Proof.
  intro st. unfold fetch_feed_data.
  destruct (fetch_attempts_trace w feed (seq 0 3) st)
    as (made & left & Hsplit & Htr).
  exists (flat_map (attempt_events w feed) made). split; [exact Htr|].
  split; [|apply attempt_events_no_save].
  unfold request_count. rewrite attempt_events_requests.
  apply (f_equal (@List.length nat)) in Hsplit.
  rewrite length_app in Hsplit. simpl in Hsplit. lia.
Qed.

Lemma appends_emit_pace (q : Q) : appends (within 0) (emit (EvPace q)).
Proof.
  intro st. exists [EvPace q]. split; [reflexivity|].
  split; [unfold request_count; simpl; lia | repeat constructor].
Qed.

Lemma appends_process_feed (w : World) (feed : string) (acc : list Deal) :
  appends (within 3) (process_feed w feed acc).
Proof.
  unfold process_feed, fetch_and_track.
  apply (appends_bind 3 0).
  - apply (appends_bind 3 0); [apply appends_fetch_feed_data|].
    intro deals_data. destruct (py_iter deals_data) as [items|];
      [|apply appends_raise].
    apply (appends_more (0 * List.length items)); [lia|].
    apply appends_for_each. intros. apply appends_process_item.
  - intro acc'. apply (appends_bind 0 0); [apply appends_emit_pace|].
    intros _. apply appends_ret.
Qed.

Lemma appends_call (w : World) (force_refresh : bool) :
  appends (within 33) (fetch_and_filter_deals_internal w force_refresh).
Proof.
  intro st. unfold fetch_and_filter_deals_internal.
  destruct (cache_is_fresh w force_refresh st).
  - exists []. split; [simpl; symmetry; apply app_nil_r | apply within_nil].
  - unfold refresh_cycle.
    change (bind load_historical_lows
              (fun _ => deals <- for_each (process_feed w) FEED_NAMES [] ;;
                        publish w deals) st)
      with ((deals <- for_each (process_feed w) FEED_NAMES [] ;;
             publish w deals) (snd (load_historical_lows st))).
    assert (H : appends (within (3 * List.length FEED_NAMES + 0))
                  (deals <- for_each (process_feed w) FEED_NAMES [] ;;
                   publish w deals)).
    { apply appends_bind.
      - apply appends_for_each. intros. apply appends_process_feed.
      - intros deals st1. exists []. split;
          [simpl; symmetry; apply app_nil_r | apply within_nil]. }
    destruct (H (snd (load_historical_lows st))) as (evs & Htr & W).
    exists evs. split; [exact Htr | exact W].
Qed.

(** A call, whether it returns or raises, makes at most 33 requests
    to the feed source: three per feed, for eleven feeds. *)
Theorem call_requests_at_most_33 (w : World) (force_refresh : bool)
  (st : State) :
  exists evs,
    trace (snd (fetch_and_filter_deals_internal w force_refresh st))
    = trace st ++ evs
    /\ (request_count evs <= 33)%nat.
Proof.
  destruct (appends_call w force_refresh st) as (evs & Htr & Hn & _).
  exists evs. split; assumption.
Qed.

(** Only qualifying prices reach the low-price store: every save a
    call makes, whether it returns or raises, is of a hashable
    identifier at a price of 75 or more. *)
Theorem call_saves_only_qualifying_prices (w : World) (force_refresh : bool)
  (st : State) :
  exists evs,
    trace (snd (fetch_and_filter_deals_internal w force_refresh st))
    = trace st ++ evs
    /\ forall key price, In (EvSave key price) evs ->
         hashable key = true /\ 75 <= price.
Proof.
  destruct (appends_call w force_refresh st) as (evs & Htr & _ & Hs).
  exists evs. split; [exact Htr|].
  intros key price Hin. rewrite Forall_forall in Hs.
  apply (Hs (EvSave key price) Hin).
Qed.

(** ** The sort of the published list *)

Lemma insert_desc_perm (d : Deal) (l : list Deal) :
  Permutation (d :: l) (insert_desc d l).
Proof.
  induction l as [|x rest IH]; simpl; [reflexivity|].
  destruct (Qle_bool (discount_percent x) (discount_percent d));
    [reflexivity|].
  rewrite perm_swap. constructor. exact IH.
Qed.

Lemma sort_desc_perm (l : list Deal) : Permutation l (sort_desc l).
Proof.
  induction l as [|d rest IH]; simpl; [constructor|].
  rewrite <- insert_desc_perm. constructor. exact IH.
Qed.

Lemma insert_desc_sorted (d : Deal) (l : list Deal) :
  StronglySorted by_discount_desc l ->
  StronglySorted by_discount_desc (insert_desc d l).
Proof.
  induction l as [|x rest IH]; intro Hs; simpl.
  - constructor; constructor.
  - inversion Hs as [|? ? Hrest Hx]; subst.
    destruct (Qle_bool (discount_percent x) (discount_percent d)) eqn:E.
    + apply Qle_bool_iff in E. constructor; [exact Hs|].
      constructor; [exact E|].
      eapply Forall_impl; [|exact Hx]. intros b Hb. unfold by_discount_desc in *.
      eapply Qle_trans; eassumption.
    + constructor; [apply IH, Hrest|].
      apply (Permutation_Forall (insert_desc_perm d rest)).
      constructor; [|exact Hx]. unfold by_discount_desc.
      destruct (Qlt_le_dec (discount_percent d) (discount_percent x))
        as [Hlt | Hle]; [apply Qlt_le_weak, Hlt|].
      apply Qle_bool_iff in Hle. congruence.
Qed.

Lemma sort_desc_sorted (l : list Deal) :
  StronglySorted by_discount_desc (sort_desc l).
Proof.
  induction l as [|d rest IH]; simpl; [constructor|].
  apply insert_desc_sorted, IH.
Qed.



(** ** What a successful cycle publishes *)

Lemma bind_ret_inv {A B : Type} (m : M A) (k : A -> M B) (st : State)
  (b : B) (st' : State) :
  bind m k st = (Ret b, st') ->
  exists a st1, m st = (Ret a, st1) /\ k a st1 = (Ret b, st').
Proof.
  unfold bind. destruct (m st) as [[a | e] st1]; [|discriminate].
  intro H. exists a, st1. split; [reflexivity | exact H].
Qed.

(** A cycle that returns has run the loop over the feeds to its end
    and published the sorted result with the second clock reading. *)
Lemma refresh_cycle_success (w : World) (st : State) (deals : list Deal)
  (st' : State) :
  refresh_cycle w st = (Ret deals, st') ->
  exists acc st1,
    for_each (process_feed w) FEED_NAMES [] (snd (load_historical_lows st))
    = (Ret acc, st1)
    /\ deals = sort_desc acc
    /\ st' = mkState (historical_lows_cache st1) (persistence_file st1)
               (sort_desc acc) (clock_end w) (trace st1).
Proof.
  unfold refresh_cycle. intro H.
  apply bind_ret_inv in H. destruct H as ([] & st0 & Hload & H).
  apply bind_ret_inv in H. destruct H as (acc & st1 & Hloop & Hpub).
  exists acc, st1. rewrite Hload. simpl snd.
  split; [exact Hloop|]. unfold publish in Hpub.
  injection Hpub as <- <-. split; reflexivity.
Qed.

Lemma grows_ret (P : Deal -> Prop) (acc : list Deal) : grows P acc (ret acc).
Proof.
  intros st acc' st' H. injection H as <- _. exists [].
  split; [symmetry; apply app_nil_r | constructor].
Qed.

Lemma grows_track_deal (w : World) (feeds : list string) (d : Deal)
  (acc : list Deal) :
  In (feed_name d) feeds ->
  grows (accepted_from feeds) acc (track_deal w d acc).
Proof.
  intros Hfeed st acc' st' Hrun. unfold track_deal in Hrun.
  destruct (passes_strict_rules d) eqn:Hp.
  - destruct (sale_price d) as [price|]; [|discriminate].
    apply bind_ret_inv in Hrun. destruct Hrun as (low & st1 & _ & Hrun).
    destruct (below_low price low).
    + apply bind_ret_inv in Hrun. destruct Hrun as (_ & st2 & _ & Hrun).
      injection Hrun as <- _. eexists. split; [reflexivity|].
      constructor; [|constructor].
      split; [exact Hp|]. split; [discriminate | exact Hfeed].
    + injection Hrun as <- _. eexists. split; [reflexivity|].
      constructor; [|constructor].
      split; [exact Hp|]. split; [discriminate | exact Hfeed].
  - injection Hrun as <- _. exists [].
    split; [symmetry; apply app_nil_r | constructor].
Qed.

Lemma process_deal_data_feed (raw : json) (feed : string) (d : Deal) :
  process_deal_data raw feed = inr d -> feed_name d = feed.
Proof.
  destruct raw; try discriminate. intro H.
  destruct (process_deal_data_cases kvs feed)
    as [Hd | (s & l & _ & _ & _ & _ & Hd)];
    rewrite Hd in H; injection H as <-; reflexivity.
Qed.

Lemma grows_process_item (w : World) (feeds : list string) (feed : string)
  (raw : json) (acc : list Deal) :
  In feed feeds ->
  grows (accepted_from feeds) acc (process_item w feed raw acc).
Proof.
  intro Hfeed. unfold process_item.
  destruct (process_deal_data raw feed) as [e | d] eqn:Hd.
  - intros st acc' st' H. discriminate.
  - apply grows_track_deal. rewrite (process_deal_data_feed raw feed d Hd).
    exact Hfeed.
Qed.

Lemma grows_for_each {A : Type} (P : Deal -> Prop)
  (body : A -> list Deal -> M (list Deal)) (xs : list A) :
  (forall x acc, In x xs -> grows P acc (body x acc)) ->
  forall acc, grows P acc (for_each body xs acc).
Proof.
  induction xs as [|x rest IH]; intros Hbody acc.
  - apply grows_ret.
  - intros st acc' st' Hrun. simpl in Hrun.
    apply bind_ret_inv in Hrun. destruct Hrun as (acc1 & st1 & H1 & H2).
    destruct (Hbody x acc (or_introl eq_refl) st acc1 st1 H1)
      as (new1 & -> & F1).
    assert (Hrest : forall y a, In y rest -> grows P a (body y a))
      by (intros y a Hy; apply Hbody; right; exact Hy).
    destruct (IH Hrest _ st1 acc' st' H2) as (new2 & -> & F2).
    exists (new1 ++ new2). split; [symmetry; apply app_assoc|].
    apply Forall_app. split; assumption.
Qed.

Lemma grows_process_feed (w : World) (feeds : list string) (feed : string)
  (acc : list Deal) :
  In feed feeds ->
  grows (accepted_from feeds) acc (process_feed w feed acc).
Proof.
  intros Hfeed st acc' st' Hrun. unfold process_feed, fetch_and_track in Hrun.
  apply bind_ret_inv in Hrun. destruct Hrun as (acc1 & st1 & H1 & H2).
  apply bind_ret_inv in H2. destruct H2 as (_ & st2 & _ & H2).
  injection H2 as <- _.
  apply bind_ret_inv in H1. destruct H1 as (deals_data & st0 & _ & H1).
  destruct (py_iter deals_data) as [items|]; [|discriminate].
  apply (grows_for_each (accepted_from feeds) (process_item w feed) items
           (fun x a _ => grows_process_item w feeds feed x a Hfeed)
           acc st0 acc1 st1 H1).
Qed.

Lemma feeds_loop_grows (w : World) (st : State) (acc : list Deal)
  (st1 : State) :
  for_each (process_feed w) FEED_NAMES [] st = (Ret acc, st1) ->
  Forall (accepted_from FEED_NAMES) acc.
Proof.
  intro Hrun.
  destruct (grows_for_each (accepted_from FEED_NAMES) (process_feed w)
              FEED_NAMES
              (fun x a Hx => grows_process_feed w FEED_NAMES x a Hx)
              [] st acc st1 Hrun) as (new & -> & F).
  exact F.
Qed.

(** Every deal a successful cycle publishes passes the filter, carries
    a label and comes from one of the eleven feeds; the published list
    is the returned one. *)
Theorem published_deals_qualify (w : World) (st : State) (deals : list Deal)
  (st' : State) :
  refresh_cycle w st = (Ret deals, st') ->
  all_qualified_deals st' = deals
  /\ Forall published_deal deals.
Proof.
  intro Hrun.
  destruct (refresh_cycle_success w st deals st' Hrun)
    as (acc & st1 & Hloop & -> & ->).
  split; [reflexivity|].
  apply (Permutation_Forall (sort_desc_perm acc)).
  apply (feeds_loop_grows w _ acc st1 Hloop).
Qed.

Lemma published_deals_qualify_witness :
  refresh_cycle good_world empty_state = (Ret published_list, published_state)
  /\ all_qualified_deals published_state = published_list
  /\ Forall published_deal published_list.
Proof.
  assert (H : refresh_cycle good_world empty_state
              = (Ret published_list, published_state))
    by (vm_compute; reflexivity).
  split; [exact H|].
  apply (published_deals_qualify good_world empty_state published_list
           published_state H).
Defined.



(** After a successful cycle the published timestamp is the cycle's
    second clock reading, and every call that is not forced and reads
    the clock less than 300 seconds after it is served the list the
    cycle returned, without a request. *)
Theorem fresh_after_success (w : World) (st : State) (deals : list Deal)
  (st' : State) (w2 : World) :
  refresh_cycle w st = (Ret deals, st') ->
  clock_start w2 - clock_end w < 300 ->
  last_fetch_time st' = clock_end w
  /\ fetch_and_filter_deals_internal w2 false st' = (Ret deals, st').
Proof.
  intros Hrun Hage.
  destruct (refresh_cycle_success w st deals st' Hrun)
    as (acc & st1 & _ & Hd & Hst).
  assert (Ht : last_fetch_time st' = clock_end w) by (rewrite Hst; reflexivity).
  assert (Hl : all_qualified_deals st' = deals)
    by (rewrite Hst, Hd; reflexivity).
  split; [exact Ht|].
  rewrite <- Hl. apply call_when_fresh. rewrite Ht. exact Hage.
Qed.

Lemma fresh_after_success_witness :
  (refresh_cycle good_world empty_state = (Ret published_list, published_state)
   /\ clock_start soon_world - clock_end good_world < 300)
  /\ last_fetch_time published_state = clock_end good_world
  /\ fetch_and_filter_deals_internal soon_world false published_state
     = (Ret published_list, published_state).
Proof.
  assert (H : refresh_cycle good_world empty_state
              = (Ret published_list, published_state))
    by (vm_compute; reflexivity).
  assert (Ha : clock_start soon_world - clock_end good_world < 300)
    by reflexivity.
  split; [split; assumption|].
  apply (fresh_after_success good_world empty_state published_list
           published_state soon_world H Ha).
Defined.

(** ** A cycle during an outage *)

Lemma fetch_attempts_no_ok (w : World) (feed : string) (attempts : list nat) :
  (forall attempt, is_ok_response (http w feed attempt) = false) ->
  forall st, exists evs,
    fetch_attempts w feed attempts st = (Ret (JArr []), add_events evs st).
Proof.
  intro Hno. induction attempts as [|attempt rest IH]; intro st.
  - exists []. rewrite add_events_nil. reflexivity.
  - destruct (retryable (http w feed attempt)) eqn:Hr.
    + rewrite (fetch_attempts_retry w feed attempt rest st Hr).
      destruct (IH (add_events (attempt_events w feed attempt) st))
        as [evs Hevs].
      exists (attempt_events w feed attempt ++ evs).
      rewrite Hevs, add_events_add. reflexivity.
    + exists [EvRequest feed attempt]. simpl fetch_attempts.
      unfold bind, emit. specialize (Hno attempt).
      destruct (http w feed attempt) as [status_code body| |];
        simpl in Hr, Hno.
      * rewrite Hno in *. simpl in Hr.
        destruct (status_code =? 429)%Z; [discriminate|]. simpl in Hr.
        destruct (is_error_status status_code); [reflexivity | discriminate].
      * discriminate.
      * reflexivity.
Qed.

Lemma process_feed_no_ok (w : World) (feed : string) (acc : list Deal)
  (st : State) :
  (forall attempt, is_ok_response (http w feed attempt) = false) ->
  exists evs, process_feed w feed acc st = (Ret acc, add_events evs st).
Proof.
  intro Hno.
  destruct (fetch_attempts_no_ok w feed (seq 0 3) Hno st) as [evs1 H1].
  exists (evs1 ++ [EvPace (pacing w feed)]).
  unfold process_feed, fetch_and_track, fetch_feed_data, bind.
  rewrite H1. simpl. unfold add_events. simpl. rewrite app_assoc.
  reflexivity.
Qed.

Lemma feeds_loop_no_ok (w : World) (feeds : list string) :
  (forall feed attempt, is_ok_response (http w feed attempt) = false) ->
  forall (acc : list Deal) (st : State), exists evs,
    for_each (process_feed w) feeds acc st = (Ret acc, add_events evs st).
Proof.
  intro Hno. induction feeds as [|feed rest IH]; intros acc st.
  - exists []. rewrite add_events_nil. reflexivity.
  - destruct (process_feed_no_ok w feed acc st (Hno feed)) as [evs1 H1].
    destruct (IH acc (add_events evs1 st)) as [evs2 H2].
    exists (evs1 ++ evs2). simpl. unfold bind. rewrite H1, H2.
    rewrite add_events_add. reflexivity.
Qed.

(** When no request of a cycle is answered 200, no feed aborts the
    cycle: it returns and publishes the empty list with a new
    timestamp, so the list published before is replaced by nothing;
    the low-price store is as the reload left it. *)
Theorem outage_publishes_empty_list (w : World) (st : State) :
  (forall feed attempt, is_ok_response (http w feed attempt) = false) ->
  exists st',
    refresh_cycle w st = (Ret [], st')
    /\ all_qualified_deals st' = []
    /\ last_fetch_time st' = clock_end w
    /\ historical_lows_cache st'
       = historical_lows_cache (snd (load_historical_lows st))
    /\ persistence_file st' = persistence_file st.
Proof.
  intro Hno. unfold refresh_cycle.
  change (bind load_historical_lows
            (fun _ => deals <- for_each (process_feed w) FEED_NAMES [] ;;
                      publish w deals) st)
    with ((deals <- for_each (process_feed w) FEED_NAMES [] ;; publish w deals)
            (snd (load_historical_lows st))).
  unfold bind.
  destruct (feeds_loop_no_ok w FEED_NAMES Hno []
              (snd (load_historical_lows st))) as [evs H].
  rewrite H. eexists. split; [reflexivity|]. repeat split.
Qed.

Lemma outage_publishes_empty_list_witness :
  (forall feed attempt,
     is_ok_response (http outage_world feed attempt) = false)
  /\ exists st',
       refresh_cycle outage_world fresh_state = (Ret [], st')
       /\ all_qualified_deals st' = []
       /\ last_fetch_time st' = clock_end outage_world
       /\ historical_lows_cache st'
          = historical_lows_cache (snd (load_historical_lows fresh_state))
       /\ persistence_file st' = persistence_file fresh_state.
Proof.
  assert (H : forall feed attempt,
             is_ok_response (http outage_world feed attempt) = false).
  { intros feed attempt. destruct attempt as [|[|attempt]]; reflexivity. }
  split; [exact H|].
  apply (outage_publishes_empty_list outage_world fresh_state H).
Defined.

(** ** The category listing *)

Lemma filter_sorted (f : Deal -> bool) (l : list Deal) :
  StronglySorted by_discount_desc l ->
  StronglySorted by_discount_desc (filter f l).
Proof.
  induction l as [|x rest IH]; intro Hs; simpl; [constructor|].
  inversion Hs as [|? ? Hrest Hx]; subst.
  destruct (f x); [|apply IH, Hrest].
  constructor; [apply IH, Hrest|].
  apply Forall_forall. intros b Hb. apply filter_In in Hb.
  rewrite Forall_forall in Hx. apply Hx, Hb.
Qed.

(** The list the category command pages through holds exactly the
    deals of the chosen feed, and when the published list is ordered
    by discount so is the category list. *)
Theorem category_list_sorted (feed : string) (all_deals : list Deal) :
  StronglySorted by_discount_desc all_deals ->
  StronglySorted by_discount_desc (category_deals_list feed all_deals)
  /\ forall d, In d (category_deals_list feed all_deals)
               <-> In d all_deals /\ feed_name d = feed.
Proof.
  intro Hs. split; [apply filter_sorted, Hs|].
  intro d. unfold category_deals_list. rewrite filter_In.
  rewrite String.eqb_eq. reflexivity.
Qed.

Lemma category_list_sorted_witness :
  StronglySorted by_discount_desc (sort_desc sample_deals)
  /\ StronglySorted by_discount_desc
       (category_deals_list "All" (sort_desc sample_deals))
  /\ forall d, In d (category_deals_list "All" (sort_desc sample_deals))
               <-> In d (sort_desc sample_deals) /\ feed_name d = "All".
Proof.
  assert (H : StronglySorted by_discount_desc (sort_desc sample_deals))
    by apply sort_desc_sorted.
  split; [exact H|].
  apply (category_list_sorted "All" (sort_desc sample_deals) H).
Defined.

(** ** The pages of a list *)

Lemma firstn_add_split {A : Type} (a b : nat) :
  forall l : list A, firstn (a + b) l = firstn a l ++ firstn b (skipn a l).
Proof.
  induction a as [|a IH]; intro l; [reflexivity|].
  destruct l as [|x l]; simpl.
  - rewrite firstn_nil. reflexivity.
  - rewrite IH. reflexivity.
Qed.

(** The slice of a page that is not negative, without the clamping. *)
Lemma page_deals_of_firstn (deals : list Deal) (page : Z) :
  (0 <= page)%Z ->
  page_deals_of deals page
  = firstn 10 (skipn (10 * Z.to_nat page) deals).
Proof.
  intro Hp. unfold page_deals_of, py_slice, slice_index, MAX_DEALS_PER_PAGE.
  set (len := Z.of_nat (List.length deals)).
  destruct (page * 10 <? 0)%Z eqn:E1; [apply Z.ltb_lt in E1; lia|].
  destruct (page * 10 + 10 <? 0)%Z eqn:E2; [apply Z.ltb_lt in E2; lia|].
  destruct (Z_le_gt_dec (page * 10 + 10) len) as [Hfull | Hshort].
  - replace (Z.to_nat (Z.min (page * 10 + 10) len - Z.min (page * 10) len))
      with 10%nat by lia.
    replace (Z.to_nat (Z.min (page * 10) len)) with (10 * Z.to_nat page)%nat
      by lia.
    reflexivity.
  - destruct (Z_le_gt_dec (page * 10) len) as [Hin | Hout].
    + replace (Z.to_nat (Z.min (page * 10) len)) with (10 * Z.to_nat page)%nat
        by lia.
      assert (Hlen : (List.length (skipn (10 * Z.to_nat page) deals) <= 10)%nat)
        by (rewrite length_skipn; unfold len in *; lia).
      rewrite (firstn_all2 (n := 10)) by exact Hlen.
      apply firstn_all2. rewrite length_skipn. unfold len in *. lia.
    + replace (Z.to_nat (Z.min (page * 10 + 10) len - Z.min (page * 10) len))
        with 0%nat by lia.
      rewrite (skipn_all2 (n := 10 * Z.to_nat page))
        by (unfold len in *; lia).
      reflexivity.
Qed.

Lemma chunks_cover {A : Type} (l : list A) (n : nat) :
  List.concat (map (fun i => firstn 10 (skipn (10 * i) l)) (seq 0 n))
  = firstn (10 * n) l.
Proof.
  induction n as [|n IH]; [reflexivity|].
  rewrite seq_S, map_app, concat_app, IH. cbn [map List.concat Nat.add].
  rewrite app_nil_r. replace (10 * S n)%nat with (10 * n + 10)%nat by lia.
  symmetry. apply firstn_add_split.
Qed.

Lemma total_pages_bounds (deals : list Deal) (title : string) :
  let pages := DealsView.total_pages (DealsView.init deals title) in
  (0 <= pages)%Z
  /\ (Z.of_nat (List.length deals) <= 10 * pages)%Z
  /\ (10 * pages < Z.of_nat (List.length deals) + 10)%Z.
Proof.
  unfold DealsView.init, MAX_DEALS_PER_PAGE. cbn [DealsView.total_pages].
  cbv zeta.
  pose proof (Nat2Z.is_nonneg (List.length deals)) as Hlen.
  set (len := Z.of_nat (List.length deals)) in *.
  Z.div_mod_to_equations. lia.
Qed.

Lemma page_deals_of_length (deals : list Deal) (page : Z) :
  (List.length (page_deals_of deals page) <= 10)%nat.
Proof.
  unfold page_deals_of, py_slice.
  eapply Nat.le_trans; [apply firstn_le_length|].
  unfold slice_index, MAX_DEALS_PER_PAGE.
  pose proof (Nat2Z.is_nonneg (List.length deals)) as Hlen.
  destruct (page * 10 <? 0)%Z eqn:E1;
    destruct (page * 10 + 10 <? 0)%Z eqn:E2;
    try apply Z.ltb_lt in E1; try apply Z.ltb_lt in E2;
    try apply Z.ltb_ge in E1; try apply Z.ltb_ge in E2; lia.
Qed.

(** The pages of a view cover its list: the slices that
    [format_deal_message] takes for the pages [0 .. total_pages - 1],
    put one after the other, are the list itself, so every deal is on
    exactly one page and in its place; and no slice, whatever the page
    number, holds more than ten deals. *)
Theorem pages_cover_all_deals (deals : list Deal) (title : string) :
  List.concat (map (page_deals_of deals)
            (page_numbers (DealsView.total_pages (DealsView.init deals title))))
  = deals
  /\ forall page, (List.length (page_deals_of deals page) <= 10)%nat.
Proof.
  destruct (total_pages_bounds deals title) as (H0 & Hcover & _).
  split.
  - unfold page_numbers. rewrite map_map.
    erewrite map_ext;
      [|intro i; apply page_deals_of_firstn; lia].
    erewrite map_ext;
      [|intro i; rewrite Nat2Z.id; reflexivity].
    rewrite chunks_cover. apply firstn_all2. lia.
  - apply page_deals_of_length.
Qed.

(** A page of the view's range is never empty, and a page at or
    beyond [total_pages] has no deal at all. *)
Theorem page_empty_iff_out_of_range (deals : list Deal) (title : string)
  (page : Z) :
  (0 <= page)%Z ->
  (page_deals_of deals page = []
   <-> (DealsView.total_pages (DealsView.init deals title) <= page)%Z).
Proof.
  intro Hp. destruct (total_pages_bounds deals title) as (H0 & Hcover & Hlast).
  rewrite (page_deals_of_firstn deals page Hp).
  set (pages := DealsView.total_pages (DealsView.init deals title)) in *.
  split.
  - intro Hempty.
    destruct (Z_le_gt_dec pages page) as [Hle | Hgt]; [exact Hle|].
    exfalso.
    assert (Hlen : (10 * Z.to_nat page < List.length deals)%nat) by lia.
    pose proof (length_skipn (10 * Z.to_nat page) deals) as Hs.
    destruct (skipn (10 * Z.to_nat page) deals) as [|x rest];
      [simpl in Hs; lia | discriminate].
  - intro Hout. rewrite skipn_all2 by lia. reflexivity.
Qed.

Lemma page_empty_iff_out_of_range_witness :
  (0 <= 1)%Z
  /\ (page_deals_of sample_deals 1 = []
      <-> (DealsView.total_pages (DealsView.init sample_deals "Top 4") <= 1)%Z).
Proof.
  assert (H : (0 <= 1)%Z) by lia.
  split; [exact H|].
  apply (page_empty_iff_out_of_range sample_deals "Top 4" 1 H).
Defined.

(** ** The text of a page *)

Lemma more_notice_length (r : Z) :
  (1 <= r <= 10)%Z -> (List.length (more_notice r) <= 60)%nat.
Proof.
  intro Hr.
  assert (H : (r = 1 \/ r = 2 \/ r = 3 \/ r = 4 \/ r = 5 \/ r = 6 \/ r = 7
              \/ r = 8 \/ r = 9 \/ r = 10)%Z) by lia.
  repeat (destruct H as [-> | H]; [vm_compute; lia|]).
  subst r. vm_compute. lia.
Qed.

Section RenderingFacts.

Variable deal_content : Deal -> text.

Lemma add_deals_shape (page_len : Z) (page_deals : list Deal) :
  forall (response_msg : text) (added : Z),
  exists k,
    (k <= List.length page_deals)%nat
    /\ add_deals deal_content page_len page_deals response_msg added
       = (response_msg ++ shown deal_content k page_deals)
         ++ (if (k <? List.length page_deals)%nat
                && (page_len - (added + Z.of_nat k) >? 0)%Z
             then more_notice (page_len - (added + Z.of_nat k))
             else [])
    /\ (k = 0%nat
        \/ (Z.of_nat (List.length
                        (response_msg ++ shown deal_content k page_deals))
            <= 1950)%Z)
    /\ ((k < List.length page_deals)%nat ->
        exists d, nth_error page_deals k = Some d
                  /\ (1950 < Z.of_nat (List.length
                                         (response_msg
                                          ++ shown deal_content k page_deals))
                              + Z.of_nat (List.length (deal_content d)))%Z).
Proof.
  induction page_deals as [|deal rest IH]; intros response_msg added.
  - exists 0%nat. simpl. unfold shown. simpl. rewrite !app_nil_r.
    split; [lia|]. split; [reflexivity|]. split; [left; reflexivity|].
    intro H. lia.
  - simpl add_deals. unfold MAX_LENGTH.
    destruct (Z.of_nat (List.length response_msg)
              + Z.of_nat (List.length (deal_content deal)) >? 1950)%Z eqn:Hover.
    + exists 0%nat. unfold shown. simpl. rewrite !app_nil_r, Z.add_0_r.
      split; [lia|].
      split; [destruct (page_len - added >? 0)%Z;
              [reflexivity | symmetry; apply app_nil_r]|].
      split; [left; reflexivity|].
      intros _. exists deal. split; [reflexivity|]. lia.
    + destruct (IH (response_msg ++ deal_content deal) (added + 1)%Z)
        as (k & Hk & Hrun & Hfit & Hnext).
      exists (S k). split; [simpl; lia|].
      assert (Hshown : response_msg ++ shown deal_content (S k) (deal :: rest)
                       = (response_msg ++ deal_content deal)
                         ++ shown deal_content k rest).
      { unfold shown. simpl. rewrite app_assoc. reflexivity. }
      rewrite Hshown. split.
      * rewrite Hrun.
        replace (added + 1 + Z.of_nat k)%Z with (added + Z.of_nat (S k))%Z
          by lia.
        reflexivity.
      * split.
        -- right. destruct Hfit as [-> | Hfit]; [|exact Hfit].
           unfold shown. simpl. rewrite app_nil_r, length_app. lia.
        -- intro Hlt. simpl in Hlt. apply Hnext. lia.
Qed.

(** The text of a page of a non-empty list is the header, then the
    texts of the first [k] deals of the page's slice, then, when
    [k] is not the whole slice, the notice with the number of deals
    left out.  The deals shown are the longest run from the start of
    the slice that stays within 1950 characters: the first deal left
    out is the one that would pass the budget, and no deal after it is
    shown even if it would fit. *)
Theorem page_text_shape (deals : list Deal) (page total_pages : Z)
  (title : text) :
  deals <> [] ->
  exists k,
    (k <= List.length (page_deals_of deals page))%nat
    /\ format_deal_message deal_content deals page total_pages title
       = (page_header title page total_pages
          ++ shown deal_content k (page_deals_of deals page))
         ++ (if (k <? List.length (page_deals_of deals page))%nat
             then more_notice
                    (Z.of_nat (List.length (page_deals_of deals page) - k))
             else [])
    /\ (k = 0%nat
        \/ (Z.of_nat (List.length
                        (page_header title page total_pages
                         ++ shown deal_content k (page_deals_of deals page)))
            <= 1950)%Z)
    /\ ((k < List.length (page_deals_of deals page))%nat ->
        exists d, nth_error (page_deals_of deals page) k = Some d
                  /\ (1950 < Z.of_nat
                               (List.length
                                  (page_header title page total_pages
                                   ++ shown deal_content k
                                        (page_deals_of deals page)))
                              + Z.of_nat (List.length (deal_content d)))%Z).
Proof.
  intro Hne. unfold format_deal_message.
  change (py_slice deals (page * MAX_DEALS_PER_PAGE)
            (page * MAX_DEALS_PER_PAGE + MAX_DEALS_PER_PAGE))
    with (page_deals_of deals page).
  destruct deals as [|d0 rest0]; [contradiction|].
  set (pd := page_deals_of (d0 :: rest0) page).
  destruct (add_deals_shape (Z.of_nat (List.length pd)) pd
              (page_header title page total_pages) 0)
    as (k & Hk & Hrun & Hfit & Hnext).
  exists k. split; [exact Hk|]. split; [|split; assumption].
  replace (Z.of_nat (List.length pd) - (0 + Z.of_nat k))%Z
    with (Z.of_nat (List.length pd - k)) in Hrun by lia.
  rewrite Hrun. f_equal.
  destruct (k <? List.length pd)%nat eqn:E; [|reflexivity].
  apply Nat.ltb_lt in E. cbn [andb].
  destruct (Z.of_nat (List.length pd - k) >? 0)%Z eqn:E2; [reflexivity|].
  exfalso. rewrite Z.gtb_ltb in E2. apply Z.ltb_ge in E2. lia.
Qed.

(** When the header fits the budget, the text of a page is at most
    2010 characters long: up to 1950 for the header and the deals
    shown, and up to 60 for the notice.  The 2000 characters of the
    docstring are not a bound of the function. *)
Theorem page_text_length (deals : list Deal) (page total_pages : Z)
  (title : text) :
  deals <> [] ->
  (Z.of_nat (List.length (page_header title page total_pages)) <= 1950)%Z ->
  (List.length (format_deal_message deal_content deals page total_pages title)
   <= 2010)%nat.
Proof.
  intros Hne Hheader. unfold format_deal_message.
  change (py_slice deals (page * MAX_DEALS_PER_PAGE)
            (page * MAX_DEALS_PER_PAGE + MAX_DEALS_PER_PAGE))
    with (page_deals_of deals page).
  destruct deals as [|d0 rest0]; [contradiction|].
  set (pd := page_deals_of (d0 :: rest0) page).
  pose proof (page_deals_of_length (d0 :: rest0) page) as Hpd. fold pd in Hpd.
  destruct (add_deals_shape (Z.of_nat (List.length pd)) pd
              (page_header title page total_pages) 0)
    as (k & Hk & Hrun & Hfit & _).
  rewrite Hrun, length_app.
  assert (Hbody : (List.length (page_header title page total_pages
                                ++ shown deal_content k pd) <= 1950)%nat).
  { destruct Hfit as [-> | Hfit]; [|lia].
    unfold shown. cbn [firstn map List.concat]. rewrite app_nil_r. lia. }
  destruct ((k <? List.length pd)%nat
            && (Z.of_nat (List.length pd) - (0 + Z.of_nat k) >? 0)%Z) eqn:E.
  - apply andb_true_iff in E. destruct E as [E _]. apply Nat.ltb_lt in E.
    pose proof (more_notice_length
                  (Z.of_nat (List.length pd) - (0 + Z.of_nat k))) as Hn.
    assert (Hr : (1 <= Z.of_nat (List.length pd) - (0 + Z.of_nat k) <= 10)%Z)
      by lia.
    specialize (Hn Hr). lia.
  - cbn [List.length]. lia.
Qed.

End RenderingFacts.

Lemma page_text_shape_witness :
  three_deals <> []
  /\ exists k,
       (k <= List.length (page_deals_of three_deals 0))%nat
       /\ format_deal_message wide_content three_deals 0 1 (text_of "T")
          = (page_header (text_of "T") 0 1
             ++ shown wide_content k (page_deals_of three_deals 0))
            ++ (if (k <? List.length (page_deals_of three_deals 0))%nat
                then more_notice
                       (Z.of_nat (List.length (page_deals_of three_deals 0) - k))
                else [])
       /\ (k = 0%nat
           \/ (Z.of_nat (List.length
                           (page_header (text_of "T") 0 1
                            ++ shown wide_content k
                                 (page_deals_of three_deals 0)))
               <= 1950)%Z)
       /\ ((k < List.length (page_deals_of three_deals 0))%nat ->
           exists d, nth_error (page_deals_of three_deals 0) k = Some d
                     /\ (1950 < Z.of_nat
                                  (List.length
                                     (page_header (text_of "T") 0 1
                                      ++ shown wide_content k
                                           (page_deals_of three_deals 0)))
                                 + Z.of_nat (List.length (wide_content d)))%Z).
Proof.
  assert (H : three_deals <> []) by discriminate.
  split; [exact H|].
  apply (page_text_shape wide_content three_deals 0 1 (text_of "T") H).
Defined.

Lemma page_text_length_witness :
  (three_deals <> []
   /\ (Z.of_nat (List.length (page_header (text_of "T") 0 1)) <= 1950)%Z)
  /\ (List.length
        (format_deal_message tight_content three_deals 0 1 (text_of "T"))
      <= 2010)%nat.
Proof.
  assert (H1 : three_deals <> []) by discriminate.
  assert (H2 : (Z.of_nat (List.length (page_header (text_of "T") 0 1))
                <= 1950)%Z) by (vm_compute; discriminate).
  split; [split; assumption|].
  apply (page_text_length tight_content three_deals 0 1 (text_of "T") H1 H2).
Defined.

(** A page that passes 2000 characters: one deal fills the budget of
    1950, the next does not fit, and the notice brings the text to
    2009. *)
Example page_text_over_2000 :
  List.length (format_deal_message tight_content three_deals 0 1 (text_of "T"))
  = 2009%nat.
Proof. vm_compute. reflexivity. Qed.

(** ** The buttons of a view *)

Lemma previous_button_page (v : DealsView.t) :
  DealsView.current_page (DealsView.previous_button v)
  = if (DealsView.current_page v >? 0)%Z
    then (DealsView.current_page v - 1)%Z
    else DealsView.current_page v.
Proof.
  unfold DealsView.previous_button.
  destruct (DealsView.current_page v >? 0)%Z; reflexivity.
Qed.

Lemma next_button_page (v : DealsView.t) :
  DealsView.current_page (DealsView.next_button v)
  = if (DealsView.current_page v <? DealsView.total_pages v - 1)%Z
    then (DealsView.current_page v + 1)%Z
    else DealsView.current_page v.
Proof.
  unfold DealsView.next_button.
  destruct (DealsView.current_page v <? DealsView.total_pages v - 1)%Z;
    reflexivity.
Qed.

(** For a view whose cursor is in range, [update_buttons] disables a
    button exactly when pressing it would leave the view as it is:
    Previous on page 0, Next on the last page. *)
Theorem disabled_iff_no_effect (v : DealsView.t) :
  DealsView.page_in_range v ->
  (previous_disabled v = true <-> DealsView.previous_button v = v)
  /\ (next_disabled v = true <-> DealsView.next_button v = v).
Proof.
  unfold DealsView.page_in_range, previous_disabled, next_disabled.
  intros [Hlo Hhi]. split; split.
  - intro H. apply Z.eqb_eq in H. unfold DealsView.previous_button.
    rewrite H. reflexivity.
  - intro H. apply (f_equal DealsView.current_page) in H.
    rewrite previous_button_page in H. apply Z.eqb_eq.
    destruct (DealsView.current_page v >? 0)%Z eqn:E; [lia|].
    rewrite Z.gtb_ltb in E. apply Z.ltb_ge in E. lia.
  - intro H. apply Z.eqb_eq in H. unfold DealsView.next_button.
    rewrite H, Z.ltb_irrefl. reflexivity.
  - intro H. apply (f_equal DealsView.current_page) in H.
    rewrite next_button_page in H. apply Z.eqb_eq.
    destruct (DealsView.current_page v <? DealsView.total_pages v - 1)%Z eqn:E;
      [lia|].
    apply Z.ltb_ge in E. lia.
Qed.

Lemma disabled_iff_no_effect_witness :
  DealsView.page_in_range middle_view
  /\ (previous_disabled middle_view = true
      <-> DealsView.previous_button middle_view = middle_view)
  /\ (next_disabled middle_view = true
      <-> DealsView.next_button middle_view = middle_view).
Proof.
  assert (H : DealsView.page_in_range middle_view)
    by (unfold DealsView.page_in_range; simpl; lia).
  split; [exact H|].
  apply (disabled_iff_no_effect middle_view H).
Defined.

(** On a view whose cursor is in range, Previous undoes Next unless
    the view is on its last page, and Next undoes Previous unless it
    is on page 0. *)
Theorem buttons_undo_each_other (v : DealsView.t) :
  DealsView.page_in_range v ->
  ((DealsView.current_page v < DealsView.total_pages v - 1)%Z ->
   DealsView.previous_button (DealsView.next_button v) = v)
  /\ ((0 < DealsView.current_page v)%Z ->
      DealsView.next_button (DealsView.previous_button v) = v).
Proof.
  destruct v as [deals title page pages].
  unfold DealsView.page_in_range. simpl. intros [Hlo Hhi]. split; intro H.
  - unfold DealsView.next_button. simpl.
    apply Z.ltb_lt in H. rewrite H. unfold DealsView.previous_button. simpl.
    apply Z.ltb_lt in H.
    replace (page + 1 >? 0)%Z with true by (symmetry; apply Z.gtb_lt; lia).
    f_equal. lia.
  - unfold DealsView.previous_button. simpl.
    replace (page >? 0)%Z with true by (symmetry; apply Z.gtb_lt; lia).
    unfold DealsView.next_button. simpl.
    replace (page - 1 <? pages - 1)%Z with true
      by (symmetry; apply Z.ltb_lt; lia).
    f_equal. lia.
Qed.

Lemma buttons_undo_each_other_witness :
  DealsView.page_in_range middle_view
  /\ DealsView.previous_button (DealsView.next_button middle_view) = middle_view
  /\ DealsView.next_button (DealsView.previous_button middle_view) = middle_view.
Proof.
  assert (H : DealsView.page_in_range middle_view)
    by (unfold DealsView.page_in_range; simpl; lia).
  destruct (buttons_undo_each_other middle_view H) as [H1 H2].
  split; [exact H|]. split; [apply H1 | apply H2]; simpl; lia.
Defined.

Lemma next_clicks_from (n : nat) :
  forall v, DealsView.page_in_range v ->
  DealsView.current_page
    (DealsView.clicks v (repeat DealsView.Next n))
  = Z.min (DealsView.current_page v + Z.of_nat n)
      (DealsView.total_pages v - 1).
Proof.
  induction n as [|n IH]; intros v Hv.
  - simpl. unfold DealsView.page_in_range in Hv. lia.
  - change (DealsView.clicks v (repeat DealsView.Next (S n)))
      with (DealsView.clicks (DealsView.next_button v)
              (repeat DealsView.Next n)).
    rewrite IH by (apply (click_keeps_range v DealsView.Next), Hv).
    rewrite next_button_page.
    destruct (click_keeps_total v DealsView.Next) as [Ht _].
    simpl in Ht. rewrite Ht.
    unfold DealsView.page_in_range in Hv.
    destruct (DealsView.current_page v <? DealsView.total_pages v - 1)%Z eqn:E;
      [apply Z.ltb_lt in E | apply Z.ltb_ge in E]; lia.
Qed.

(** From a new view over a non-empty list, [n] presses of Next lead
    to page [n], or to the last page when [n] is beyond it: every page
    can be reached and none is skipped. *)
Theorem next_clicks_reach (deals : list Deal) (title : string) (n : nat) :
  deals <> [] ->
  DealsView.current_page
    (DealsView.clicks (DealsView.init deals title) (repeat DealsView.Next n))
  = Z.min (Z.of_nat n)
      (DealsView.total_pages (DealsView.init deals title) - 1).
Proof.
  intro Hne. rewrite next_clicks_from by (apply init_in_range, Hne).
  reflexivity.
Qed.

Lemma next_clicks_reach_witness :
  sample_deals <> []
  /\ DealsView.current_page
       (DealsView.clicks (DealsView.init sample_deals "Top 4")
          (repeat DealsView.Next 5))
     = Z.min (Z.of_nat 5)
         (DealsView.total_pages (DealsView.init sample_deals "Top 4") - 1).
Proof.
  assert (H : sample_deals <> []) by discriminate.
  split; [exact H|].
  apply (next_clicks_reach sample_deals "Top 4" 5 H).
Defined.

(** ** The settings file *)



